(** * Squad Elimination: the match and round state machine

    A shallow embedding of [src/Script.mts] (the complete variant of the
    script) and of the [RoundState] class of [src/unnamed/part_000], followed
    by the properties of the squad counters, the round loop and the game loop.

    JavaScript numbers are modelled as [Z] (every counter of the script is a
    small integer), a [Map<number, V>] as the list of its entries in
    insertion order, and the mutable objects held by a map as the values
    stored in that list: mutating an object reached through the map is an
    update of its entry (every entry holds an object of its own, as
    [new Team(id)] and [new Player(id)] make them). *)

From Stdlib Require Import ZArith List Bool String Lia.
From Equations Require Import Equations.
From Equations.Prop Require Import Logic.
Import ListNotations.

Local Open Scope Z_scope.

(** ** Constants *)

Definition MINIMUM_PLAYERS_TO_START : Z := 1.
Definition NUMBER_OF_TEAMS : Z := 6.
Definition INITIAL_TEAM_REVIVES : Z := 4.
Definition ROUNDS_TO_WIN : Z := 2.
Definition MAX_NUMBER_OF_ROUNDS : Z := 7.
Definition ROUND_TIMER_SECS : Z := 60 * 10.
Definition SUDDEN_DEATH_TIMER_SECS : Z := 60 * 2.

(** [TeamIdMapping[k]]: [None] stands for [undefined]. *)
Definition TeamIdMapping (k : Z) : option string :=
  match k with
  | 0 => Some "Alfa"%string
  | 1 => Some "Bravo"%string
  | 2 => Some "Charlie"%string
  | 3 => Some "Delta"%string
  | 4 => Some "Echo"%string
  | 5 => Some "Foxtrot"%string
  | _ => None
  end.

(** ** [Map<number, V>] *)

Definition JsMap (V : Type) : Type := list (Z * V).

Fixpoint Map_get {V} (k : Z) (m : JsMap V) : option V :=
  match m with
  | [] => None
  | (k', v) :: m' => if k' =? k then Some v else Map_get k m'
  end.

Definition Map_values {V} (m : JsMap V) : list V := map snd m.

(** [m.forEach(v => v.method())] where the method mutates [v]. *)
Definition Map_forEach {V} (f : V -> V) (m : JsMap V) : JsMap V :=
  map (fun kv => (fst kv, f (snd kv))) m.

(** ** class Team *)

Record Team := mkTeam {
  teamId : Z;
  teamName : string;
  teamScore : Z;
  teamRevivesLeft : Z;
  teamPlayersAlive : Z;
  teamEliminated : bool
}.

Definition newTeam (id : Z) : Team :=
  {| teamId := id;
     teamName := match TeamIdMapping id with Some s => s | None => "Unknown"%string end;
     teamScore := 0;
     teamRevivesLeft := INITIAL_TEAM_REVIVES;
     teamPlayersAlive := 4;
     teamEliminated := false |}.

Definition gameReset (t : Team) : Team :=
  {| teamId := teamId t;
     teamName := teamName t;
     teamScore := 0;
     teamRevivesLeft := INITIAL_TEAM_REVIVES;
     teamPlayersAlive := 4;
     teamEliminated := false |}.

Definition roundReset (t : Team) : Team :=
  {| teamId := teamId t;
     teamName := teamName t;
     teamScore := teamScore t;
     teamRevivesLeft := INITIAL_TEAM_REVIVES;
     teamPlayersAlive := 4;
     teamEliminated := false |}.

Definition handleTeamElimination (t : Team) : Team :=
  {| teamId := teamId t;
     teamName := teamName t;
     teamScore := teamScore t;
     teamRevivesLeft := teamRevivesLeft t;
     teamPlayersAlive := teamPlayersAlive t;
     teamEliminated := true |}.

Definition handleTeamRevive (t : Team) : Team :=
  {| teamId := teamId t;
     teamName := teamName t;
     teamScore := teamScore t;
     teamRevivesLeft := teamRevivesLeft t - 1;
     teamPlayersAlive := teamPlayersAlive t + 1;
     teamEliminated := teamEliminated t |}.

Definition handleTeamDeath (t : Team) : Team :=
  let t1 :=
    {| teamId := teamId t;
       teamName := teamName t;
       teamScore := teamScore t;
       teamRevivesLeft := teamRevivesLeft t;
       teamPlayersAlive := teamPlayersAlive t - 1;
       teamEliminated := teamEliminated t |} in
  if teamPlayersAlive t1 =? 0 then handleTeamElimination t1 else t1.

Definition hasTeamRevivesLeft (t : Team) : bool := 0 <? teamRevivesLeft t.
Definition hasTeamPlayersAlive (t : Team) : bool := 0 <? teamPlayersAlive t.
Definition isTeamEliminated (t : Team) : bool := teamEliminated t.

Definition addRoundWin (t : Team) : Team :=
  {| teamId := teamId t;
     teamName := teamName t;
     teamScore := teamScore t + 1;
     teamRevivesLeft := teamRevivesLeft t;
     teamPlayersAlive := teamPlayersAlive t;
     teamEliminated := teamEliminated t |}.

Definition hasWonGame (t : Team) : bool := ROUNDS_TO_WIN <=? teamScore t.

(** ** class Player *)

Record Player := mkPlayer {
  playerId : Z;
  playerName : string;
  playerTeam : Z;
  playerAlive : bool;
  playerPinged : bool
}.

Definition newPlayer (id : Z) : Player :=
  {| playerId := id;
     playerName := EmptyString;
     playerTeam := -1;
     playerAlive := true;
     playerPinged := false |}.

Definition handlePlayerDeath (p : Player) : Player :=
  {| playerId := playerId p;
     playerName := playerName p;
     playerTeam := playerTeam p;
     playerAlive := false;
     playerPinged := playerPinged p |}.

Definition handlePlayerRevive (p : Player) : Player :=
  {| playerId := playerId p;
     playerName := playerName p;
     playerTeam := playerTeam p;
     playerAlive := true;
     playerPinged := playerPinged p |}.

Definition isPlayerAlive (p : Player) : bool := playerAlive p.

Definition canBeRevived (p : Player) (teams : JsMap Team) : bool :=
  if playerAlive p then false
  else match Map_get (playerTeam p) teams with
       | None => false
       | Some playerTeam => hasTeamRevivesLeft playerTeam && hasTeamPlayersAlive playerTeam
       end.

Definition setPlayerPinged (isPinged : bool) (p : Player) : Player :=
  {| playerId := playerId p;
     playerName := playerName p;
     playerTeam := playerTeam p;
     playerAlive := playerAlive p;
     playerPinged := isPinged |}.

(** ** class GameState *)

Record GameState := mkGameState {
  gameStarted : bool;
  gameEnded : bool;
  gameRound : Z;
  teams : JsMap Team;
  players : JsMap Player;
  roundStarted : bool;
  roundEnded : bool;
  roundTimerSecs : Z;
  roundInSuddenDeath : bool
}.

Definition newGameState : GameState :=
  {| gameStarted := false;
     gameEnded := false;
     gameRound := -1;
     teams := [];
     players := [];
     roundStarted := false;
     roundEnded := false;
     roundTimerSecs := 0;
     roundInSuddenDeath := false |}.

Definition startGame (g : GameState) : GameState :=
  {| gameStarted := true;
     gameEnded := false;
     gameRound := gameRound g;
     teams := teams g;
     players := players g;
     roundStarted := roundStarted g;
     roundEnded := roundEnded g;
     roundTimerSecs := roundTimerSecs g;
     roundInSuddenDeath := roundInSuddenDeath g |}.

Definition endGame (g : GameState) : GameState :=
  {| gameStarted := false;
     gameEnded := true;
     gameRound := -1;
     teams := teams g;
     players := players g;
     roundStarted := roundStarted g;
     roundEnded := roundEnded g;
     roundTimerSecs := roundTimerSecs g;
     roundInSuddenDeath := roundInSuddenDeath g |}.

Definition startNewRound (roundNumber : Z) (g : GameState) : GameState :=
  {| gameStarted := gameStarted g;
     gameEnded := gameEnded g;
     gameRound := roundNumber;
     teams := Map_forEach roundReset (teams g);
     players := Map_forEach (setPlayerPinged false) (players g);
     roundStarted := true;
     roundEnded := false;
     roundTimerSecs := 0;
     roundInSuddenDeath := false |}.

Definition roundEnterSuddenDeath (g : GameState) : GameState :=
  {| gameStarted := gameStarted g;
     gameEnded := gameEnded g;
     gameRound := gameRound g;
     teams := teams g;
     players := Map_forEach (setPlayerPinged true) (players g);
     roundStarted := roundStarted g;
     roundEnded := roundEnded g;
     roundTimerSecs := roundTimerSecs g;
     roundInSuddenDeath := true |}.

Definition getAliveTeams (g : GameState) : list Team :=
  filter (fun s => negb (isTeamEliminated s)) (Map_values (teams g)).

Definition getTeamById (teamId : Z) (g : GameState) : option Team :=
  Map_get teamId (teams g).

Definition getAllPlayers (g : GameState) : list Player :=
  Map_values (players g).

(** ** The console

    The template strings of the script are kept as structured lines; each
    constructor carries the values interpolated into its message. *)

Inductive LogLine : Type :=
| GameStartedLine                                   (* "Game started" *)
| StartingRound (n : Z)                             (* "Starting round n" *)
| EnteringSuddenDeath (n : Z)                       (* "Round n entering sudden death..." *)
| RoundWonBy (n : Z) (name : string)                (* "Round n won by name" *)
| RoundEndedAlive (n : Z) (names : list string)     (* "Round n ended; teams alive: ..." *)
| GameWonBy (name : string) (rounds : Z)            (* "Game won by team name in rounds rounds!" *)
| GameLost (rounds : Z)                             (* "Game lost; no team won in rounds rounds" *)
| EndRoundNotStarted.                               (* console.debug of endRound *)

(** The module-level [game] object together with what was written to the
    console so far, oldest line first. *)
Record World := mkWorld {
  game : GameState;
  console : list LogLine
}.

Definition onGame (f : GameState -> GameState) (w : World) : World :=
  {| game := f (game w); console := console w |}.

Definition console_log (l : LogLine) (w : World) : World :=
  {| game := game w; console := console w ++ [l] |}.

Definition endRound (w : World) : World :=
  let w1 := if roundStarted (game w) then w else console_log EndRoundNotStarted w in
  onGame (fun g =>
    {| gameStarted := gameStarted g;
       gameEnded := gameEnded g;
       gameRound := gameRound g;
       teams := teams g;
       players := players g;
       roundStarted := false;
       roundEnded := true;
       roundTimerSecs := roundTimerSecs g;
       roundInSuddenDeath := roundInSuddenDeath g |}) w1.

(** ** Event handlers

    The types of the [mod] namespace are declared by the host, outside the
    script; the handlers take them as parameters.  Every handler of the
    script has an empty body: it returns the [game] object as it found it. *)

Section Handlers.
Variables mod_Player mod_DeathType mod_WeaponUnlock : Type.

Definition OnPlayerJoinGame (eventPlayer : mod_Player) (g : GameState) : GameState := g.

Definition OnPlayerLeaveGame (eventNumber : Z) (g : GameState) : GameState := g.

Definition OnPlayerDeployed (eventPlayer : mod_Player) (g : GameState) : GameState := g.

Definition OnPlayerDied (eventPlayer eventOtherPlayer : mod_Player)
    (eventDeathType : mod_DeathType) (eventWeaponUnlock : mod_WeaponUnlock)
    (g : GameState) : GameState := g.
End Handlers.

Definition OnGameModeEnding (g : GameState) : GameState := g.
Definition OngoingGlobal (g : GameState) : GameState := g.

(** ** OnGameModeStarted

    [await mod.Wait(1)] suspends the loop; what the host runs meanwhile is a
    parameter: [wait roundNumber roundTimerSecs] is the change made to [game]
    by the handlers called during the suspension of that iteration.  With
    the handlers of the script itself nothing changes: [noEvents]. *)

Definition HostWait : Type := Z -> Z -> GameState -> GameState.

Definition noEvents : HostWait := fun _ _ g => g.

(** Guard of the inner [while]. *)
Definition tickGuard (g : GameState) (roundTimerSecs : Z) : bool :=
  Nat.ltb 1 (List.length (getAliveTeams g))
  && (roundTimerSecs <? ROUND_TIMER_SECS + SUDDEN_DEATH_TIMER_SECS).

(** Body of the inner [while]. *)
Definition tickBody (wait : HostWait) (roundNumber : Z) (w : World) (roundTimerSecs : Z)
  : World * Z :=
  let w1 := onGame (wait roundNumber roundTimerSecs) w in
  let w2 := if roundTimerSecs =? ROUND_TIMER_SECS
            then onGame roundEnterSuddenDeath
                   (console_log (EnteringSuddenDeath (roundNumber + 1)) w1)
            else w1 in
  (w2, roundTimerSecs + 1).

(** One turn of the inner [while]: [None] when the guard fails. *)
Definition tickStep (wait : HostWait) (roundNumber : Z) (s : World * Z) : option (World * Z) :=
  if tickGuard (game (fst s)) (snd s)
  then Some (tickBody wait roundNumber (fst s) (snd s))
  else None.

(** Turns the inner [while] can still take: its termination measure. *)
Definition ticksLeft (s : World * Z) : nat :=
  Z.to_nat (ROUND_TIMER_SECS + SUDDEN_DEATH_TIMER_SECS - snd s).
Arguments ticksLeft : simpl never.

Equations? tickLoop (wait : HostWait) (roundNumber : Z) (s : World * Z) : World * Z
  by wf (ticksLeft s) lt :=
  tickLoop wait roundNumber s with inspect (tickStep wait roundNumber s) := {
    | exist _ (Some s') e => tickLoop wait roundNumber s'
    | exist _ None _ => s }.
Proof.
  revert e. unfold tickStep, tickGuard, tickBody, ticksLeft. cbn [fst snd].
  destruct (Nat.ltb 1 _); cbn [andb]; [| discriminate].
  destruct (Z.ltb_spec z0 (ROUND_TIMER_SECS + SUDDEN_DEATH_TIMER_SECS)); [| discriminate].
  intros [= _ <-]. lia.
Qed.

(** The object [getAliveTeams()[0]] is the first entry of [teams] that is
    not eliminated; a method called on it mutates that entry. *)
Fixpoint updateFirstAlive (f : Team -> Team) (m : JsMap Team) : JsMap Team :=
  match m with
  | [] => []
  | (k, s) :: m' =>
      if isTeamEliminated s then (k, s) :: updateFirstAlive f m' else (k, f s) :: m'
  end.

Definition setTeams (m : JsMap Team) (g : GameState) : GameState :=
  {| gameStarted := gameStarted g;
     gameEnded := gameEnded g;
     gameRound := gameRound g;
     teams := m;
     players := players g;
     roundStarted := roundStarted g;
     roundEnded := roundEnded g;
     roundTimerSecs := roundTimerSecs g;
     roundInSuddenDeath := roundInSuddenDeath g |}.

(** The [if]/[else] that follows the inner [while]. *)
Definition resolveRound (roundNumber : Z) (w : World) : World :=
  match getAliveTeams (game w) with
  | [winningTeam] =>
      let w1 := console_log (RoundWonBy (roundNumber + 1) (teamName winningTeam)) w in
      onGame (fun g => setTeams (updateFirstAlive addRoundWin (teams g)) g) w1
  | alive =>
      console_log (RoundEndedAlive (roundNumber + 1) (map teamName alive)) w
  end.

(** Body of the outer [while], without the increment of [roundNumber]. *)
Definition playRound (wait : HostWait) (roundNumber : Z) (w : World) : World :=
  let w1 := console_log (StartingRound (roundNumber + 1)) w in
  let w2 := onGame (startNewRound roundNumber) w1 in
  let w3 := fst (tickLoop wait roundNumber (w2, 0)) in
  let w4 := resolveRound roundNumber w3 in
  endRound w4.

(** Guard of the outer [while]. *)
Definition gameGuard (g : GameState) (roundNumber : Z) : bool :=
  forallb (fun team => negb (hasWonGame team)) (Map_values (teams g))
  && (roundNumber <? MAX_NUMBER_OF_ROUNDS).

(** One turn of the outer [while]: [None] when the guard fails. *)
Definition gameStep (wait : HostWait) (s : World * Z) : option (World * Z) :=
  if gameGuard (game (fst s)) (snd s)
  then Some (playRound wait (snd s) (fst s), snd s + 1)
  else None.

(** Rounds the outer [while] can still play: its termination measure. *)
Definition roundsLeft (s : World * Z) : nat :=
  Z.to_nat (MAX_NUMBER_OF_ROUNDS - snd s).
Arguments roundsLeft : simpl never.

Equations? gameLoop (wait : HostWait) (s : World * Z) : World * Z
  by wf (roundsLeft s) lt :=
  gameLoop wait s with inspect (gameStep wait s) := {
    | exist _ (Some s') e => gameLoop wait s'
    | exist _ None _ => s }.
Proof.
  revert e. unfold gameStep, gameGuard, roundsLeft. cbn [fst snd].
  destruct (forallb _ _); cbn [andb]; [| discriminate].
  destruct (Z.ltb_spec z0 MAX_NUMBER_OF_ROUNDS); [| discriminate].
  intros [= _ <-]. lia.
Qed.

Definition OnGameModeStarted (wait : HostWait) (w : World) : World :=
  let w1 := onGame startGame w in
  let w2 := console_log GameStartedLine w1 in
  let '(w3, roundNumber) := gameLoop wait (w2, 0) in
  let winningTeamList := filter hasWonGame (Map_values (teams (game w3))) in
  let w4 := match winningTeamList with
            | [winner] => console_log (GameWonBy (teamName winner) (roundNumber + 1)) w3
            | _ => console_log (GameLost MAX_NUMBER_OF_ROUNDS) w3
            end in
  onGame endGame w4.

(** The module evaluates [const game = new GameState()] once, with an empty
    console. *)
Definition initialWorld : World := {| game := newGameState; console := [] |}.

(** ** class RoundState of [src/unnamed/part_000] *)

Module Part000.

Definition MAX_ROUNDS : Z := 7.

Record RoundState := mkRoundState {
  roundStarted : bool;
  roundEnded : bool;
  roundNumber : Z;
  roundTimerSecs : Z;
  roundTeams : JsMap Team;
  roundPlayers : JsMap Player;
  isSuddenDeath : bool
}.

Definition newRoundState : RoundState :=
  {| roundStarted := false;
     roundEnded := false;
     roundNumber := -1;
     roundTimerSecs := 0;
     roundTeams := [];
     roundPlayers := [];
     isSuddenDeath := false |}.

(** A call either returns the mutated object or throws. *)
Inductive Thrown : Type :=
| InvalidRoundNumber (roundNumber : Z).   (* Error(`Invalid round number: ${roundNumber}`) *)

Inductive Completion (A : Type) : Type :=
| Normal (a : A)
| Throw (e : Thrown).
Arguments Normal {A} a.
Arguments Throw {A} e.

Definition startNewRound (n : Z) (r : RoundState) : Completion RoundState :=
  if (n <? 0) || (MAX_ROUNDS <? n)
  then Throw (InvalidRoundNumber n)
  else Normal
    {| roundStarted := true;
       roundEnded := false;
       roundNumber := n;
       roundTimerSecs := 0;
       roundTeams := roundTeams r;
       roundPlayers := roundPlayers r;
       isSuddenDeath := false |}.

Definition endRound (r : RoundState) : RoundState :=
  {| roundStarted := false;
     roundEnded := true;
     roundNumber := roundNumber r;
     roundTimerSecs := roundTimerSecs r;
     roundTeams := roundTeams r;
     roundPlayers := roundPlayers r;
     isSuddenDeath := isSuddenDeath r |}.

End Part000.

(** ** Sequences of calls on one squad *)

Inductive TeamOp : Type :=
| OpGameReset
| OpRoundReset
| OpElimination
| OpRevive
| OpDeath
| OpRoundWin.

Definition applyTeamOp (t : Team) (op : TeamOp) : Team :=
  match op with
  | OpGameReset => gameReset t
  | OpRoundReset => roundReset t
  | OpElimination => handleTeamElimination t
  | OpRevive => handleTeamRevive t
  | OpDeath => handleTeamDeath t
  | OpRoundWin => addRoundWin t
  end.

Definition runTeamOps (t : Team) (ops : list TeamOp) : Team :=
  fold_left applyTeamOp ops t.

(** [eliminated == (playersAlive == 0)] *)
Definition squadInvariant (t : Team) : bool :=
  Bool.eqb (teamEliminated t) (teamPlayersAlive t =? 0).

(** The four operations of the squad interface: the two resets, a death, a
    revive and a round win. *)
Definition squadOp (op : TeamOp) : bool :=
  match op with
  | OpElimination => false
  | _ => true
  end.

(** What a caller checks before the call: a revive goes through
    [canBeRevived], which asks for [hasTeamPlayersAlive]; a death is
    reported for a squad that still has a player alive. *)
Definition callerChecked (t : Team) (op : TeamOp) : bool :=
  match op with
  | OpRevive | OpDeath => hasTeamPlayersAlive t
  | _ => true
  end.

Fixpoint checkedRun (t : Team) (ops : list TeamOp) : bool :=
  match ops with
  | [] => true
  | op :: ops' => squadOp op && callerChecked t op && checkedRun (applyTeamOp t op) ops'
  end.

(** The invariant that a checked run keeps: the flag agrees with the counter
    and the counter is not negative. *)
Definition squadSound (t : Team) : Prop :=
  teamEliminated t = (teamPlayersAlive t =? 0) /\ 0 <= teamPlayersAlive t.

(** The calls that can occur between two [startNewRound]: all but the resets. *)
Definition withinRound (op : TeamOp) : bool :=
  match op with
  | OpGameReset | OpRoundReset => false
  | _ => true
  end.

(** ** Turns of the inner loop, counted *)

Fixpoint tickSteps (wait : HostWait) (roundNumber : Z) (k : nat) (s : World * Z)
  : option (World * Z) :=
  match k with
  | O => Some s
  | S k' =>
      match tickStep wait roundNumber s with
      | Some s' => tickSteps wait roundNumber k' s'
      | None => None
      end
  end.

(** ** Turns of the outer loop, counted *)

Fixpoint gameSteps (wait : HostWait) (k : nat) (s : World * Z) : option (World * Z) :=
  match k with
  | O => Some s
  | S k' =>
      match gameStep wait s with
      | Some s' => gameSteps wait k' s'
      | None => None
      end
  end.

Definition scores (g : GameState) : list Z := map teamScore (Map_values (teams g)).

Definition winners (g : GameState) : list Team :=
  filter hasWonGame (Map_values (teams g)).

(** One entry of a list of scores raised by one, or none. *)
Definition bumped (l l' : list Z) : Prop :=
  l' = l \/ exists l1 x l2, l = l1 ++ x :: l2 /\ l' = l1 ++ (x + 1) :: l2.

(** ** Sample states *)

Definition sixTeams : JsMap Team := map (fun k => (k, newTeam k)) [0; 1; 2; 3; 4; 5].

Definition playerOn (id team : Z) : Player :=
  {| playerId := id;
     playerName := EmptyString;
     playerTeam := team;
     playerAlive := true;
     playerPinged := false |}.

(** Players 0..23, four to a squad: player [id] is on squad [id / 4]. *)
Definition allPlayers : JsMap Player :=
  map (fun k => (k, playerOn k (k / 4)))
      [0; 1; 2; 3; 4; 5; 6; 7; 8; 9; 10; 11; 12; 13; 14; 15; 16; 17; 18; 19; 20; 21; 22; 23].

Definition fullLobby : GameState :=
  {| gameStarted := false;
     gameEnded := false;
     gameRound := -1;
     teams := sixTeams;
     players := allPlayers;
     roundStarted := false;
     roundEnded := false;
     roundTimerSecs := 0;
     roundInSuddenDeath := false |}.

(** A round of a started game that has entered sudden death. *)
Definition inSuddenDeath : GameState :=
  roundEnterSuddenDeath (startNewRound 0 (startGame fullLobby)).

(** A host for tests: in round [n], during the wait of the turn that runs
    with [roundTimerSecs = 5], every squad but [survivor n] is eliminated. *)
Definition lastStanding (survivor : Z -> Z) : HostWait :=
  fun n t g =>
    if t =? 5
    then setTeams
           (Map_forEach
              (fun s => if teamId s =? survivor n then s else handleTeamElimination s)
              (teams g))
           g
    else g.

(** Squad 3 outlives the others in rounds 0 and 2, squad 0 in round 1. *)
Definition deltaAlfaDelta (n : Z) : Z :=
  match n with
  | 1 => 0
  | _ => 3
  end.

Definition playersOf (team : Z) (g : GameState) : list Player :=
  filter (fun p => playerTeam p =? team) (getAllPlayers g).

(** ** Counting calls, guarded rounds *)

Definition isGameReset (op : TeamOp) : bool :=
  match op with OpGameReset => true | _ => false end.

Definition isRoundWin (op : TeamOp) : bool :=
  match op with OpRoundWin => true | _ => false end.

Definition isRevive (op : TeamOp) : bool :=
  match op with OpRevive => true | _ => false end.

Definition countRoundWins (ops : list TeamOp) : Z :=
  Z.of_nat (List.length (filter isRoundWin ops)).

Definition countRevives (ops : list TeamOp) : Z :=
  Z.of_nat (List.length (filter isRevive ops)).

(** The squad half of [canBeRevived]: the expression it returns once the
    player is dead and the squad found. *)
Definition squadCanRevive (t : Team) : bool :=
  hasTeamRevivesLeft t && hasTeamPlayersAlive t.

(** Calls made on a squad during one round, every revive having passed
    [squadCanRevive]. *)
Fixpoint revivesChecked (t : Team) (ops : list TeamOp) : bool :=
  match ops with
  | [] => true
  | op :: ops' =>
      withinRound op
      && (if isRevive op then squadCanRevive t else true)
      && revivesChecked (applyTeamOp t op) ops'
  end.

(** ** Sequences of calls on the game state *)

Inductive GameOp : Type :=
| GStartGame
| GEndGame
| GStartNewRound (roundNumber : Z)
| GEndRound
| GEnterSuddenDeath.

Definition applyGameOp (w : World) (op : GameOp) : World :=
  match op with
  | GStartGame => onGame startGame w
  | GEndGame => onGame endGame w
  | GStartNewRound n => onGame (startNewRound n) w
  | GEndRound => endRound w
  | GEnterSuddenDeath => onGame roundEnterSuddenDeath w
  end.

Definition runGameOps (w : World) (ops : list GameOp) : World :=
  fold_left applyGameOp ops w.

Definition isStartNewRound (op : GameOp) : bool :=
  match op with GStartNewRound _ => true | _ => false end.

(** Neither pair of lifecycle flags is true together. *)
Definition flagsExclusive (g : GameState) : bool :=
  negb (gameStarted g && gameEnded g) && negb (roundStarted g && roundEnded g).

Definition Map_keys {V} (m : JsMap V) : list Z := map fst m.

(** The console lines of [k] rounds, from round [n] on, each ended at once
    with no squad alive. *)
Fixpoint emptyRounds (n : Z) (k : nat) : list LogLine :=
  match k with
  | O => []
  | S k' => StartingRound (n + 1) :: RoundEndedAlive (n + 1) [] :: emptyRounds (n + 1) k'
  end.

(** ** Tallies over the console and the scores *)

Definition isStartingRound (l : LogLine) : bool :=
  match l with StartingRound _ => true | _ => false end.

Definition isRoundWonBy (l : LogLine) : bool :=
  match l with RoundWonBy _ _ => true | _ => false end.

Definition isRoundEndedAlive (l : LogLine) : bool :=
  match l with RoundEndedAlive _ _ => true | _ => false end.

Definition countLines (p : LogLine -> bool) (c : list LogLine) : Z :=
  Z.of_nat (List.length (filter p c)).

Definition sumZ (l : list Z) : Z := fold_right Z.add 0 l.

(** The three tallies of a world that a round moves together: rounds
    started, rounds ended either way, and rounds won against points held. *)
Definition roundsStarted (w : World) : Z := countLines isStartingRound (console w).

Definition roundsEnded (w : World) : Z :=
  countLines isRoundWonBy (console w) + countLines isRoundEndedAlive (console w).

Definition roundsWon (w : World) : Z := countLines isRoundWonBy (console w).

Definition pointsHeld (w : World) : Z := sumZ (scores (game w)).


(** ** Sequences of calls on a [RoundState] of [part_000]

    [startNewRound] throws before its first assignment: a call that throws
    leaves the object as it was. *)

Inductive RoundOp : Type :=
| RStartNewRound (roundNumber : Z)
| REndRound.

Definition applyRoundOp (r : Part000.RoundState) (op : RoundOp) : Part000.RoundState :=
  match op with
  | RStartNewRound n =>
      match Part000.startNewRound n r with
      | Part000.Normal r' => r'
      | Part000.Throw _ => r
      end
  | REndRound => Part000.endRound r
  end.

Definition runRoundOps (r : Part000.RoundState) (ops : list RoundOp) : Part000.RoundState :=
  fold_left applyRoundOp ops r.

Definition isDeath (op : TeamOp) : bool :=
  match op with OpDeath => true | _ => false end.

Definition countDeaths (ops : list TeamOp) : Z :=
  Z.of_nat (List.length (filter isDeath ops)).

(** Two squad maps with the same keys in the same order whose squads agree
    on [teamRevivesLeft] and [teamPlayersAlive]; ids, names, scores and
    eliminated flags are free. *)
Definition sameCounters (ts ts' : JsMap Team) : Prop :=
  Forall2 (fun a b => fst a = fst b /\
                      teamRevivesLeft (snd a) = teamRevivesLeft (snd b) /\
                      teamPlayersAlive (snd a) = teamPlayersAlive (snd b)) ts ts'.

(** * Properties *)

(** ** The squad counters *)

Lemma handleTeamDeath_playersAlive t :
  teamPlayersAlive (handleTeamDeath t) = teamPlayersAlive t - 1.
Proof.
  unfold handleTeamDeath. cbn.
  destruct (teamPlayersAlive t - 1 =? 0); reflexivity.
Qed.

Lemma handleTeamDeath_eliminated t :
  teamEliminated (handleTeamDeath t)
  = (teamPlayersAlive t =? 1) || teamEliminated t.
Proof.
  unfold handleTeamDeath. cbn.
  destruct (Z.eqb_spec (teamPlayersAlive t - 1) 0), (Z.eqb_spec (teamPlayersAlive t) 1);
    cbn; try reflexivity; lia.
Qed.

Lemma squadSound_newTeam id : squadSound (newTeam id).
Proof. split; cbn; [reflexivity | lia]. Qed.

Lemma squadSound_step t op :
  squadSound t -> squadOp op = true -> callerChecked t op = true ->
  squadSound (applyTeamOp t op).
Proof.
  intros [He Hp] Hop Hck. destruct op; cbn in *; try discriminate.
  - split; cbn; [reflexivity | lia].
  - split; cbn; [reflexivity | lia].
  - unfold hasTeamPlayersAlive in Hck. apply Z.ltb_lt in Hck. split; cbn; [| lia].
    rewrite He.
    destruct (Z.eqb_spec (teamPlayersAlive t) 0), (Z.eqb_spec (teamPlayersAlive t + 1) 0);
      try reflexivity; lia.
  - unfold hasTeamPlayersAlive in Hck. apply Z.ltb_lt in Hck. split.
    + rewrite handleTeamDeath_eliminated, handleTeamDeath_playersAlive, He.
      destruct (Z.eqb_spec (teamPlayersAlive t) 1), (Z.eqb_spec (teamPlayersAlive t) 0),
        (Z.eqb_spec (teamPlayersAlive t - 1) 0); cbn; try reflexivity; lia.
    + rewrite handleTeamDeath_playersAlive. lia.
  - split; cbn; assumption.
Qed.

Lemma squadSound_run ops : forall t,
  squadSound t -> checkedRun t ops = true -> squadSound (runTeamOps t ops).
Proof.
  induction ops as [| op ops IH]; intros t Hs Hck; cbn in *.
  - exact Hs.
  - apply andb_true_iff in Hck as [Hck Hrest].
    apply andb_true_iff in Hck as [Hop Hck].
    apply IH; [apply squadSound_step |]; assumption.
Qed.

(** C2, as stated, fails: four deaths eliminate the squad; a revive that
    follows raises [teamPlayersAlive] to 1, and a fifth death lowers it to
    -1, while [teamEliminated] stays true. *)
Lemma squadInvariant_broken_by_unchecked_calls :
  squadInvariant
    (runTeamOps (newTeam 3) [OpDeath; OpDeath; OpDeath; OpDeath; OpRevive]) = false /\
  squadInvariant
    (runTeamOps (newTeam 3) [OpDeath; OpDeath; OpDeath; OpDeath; OpDeath]) = false.
Proof. split; reflexivity. Qed.

(** C2 (amended): starting from a freshly constructed squad, after every
    sequence of resets, deaths, revives and round wins in which each death
    and each revive is applied to a squad that has a player alive
    ([playersAlive > 0], which [canBeRevived] checks for a revive), the squad
    satisfies [eliminated == (playersAlive == 0)]. *)
Theorem squadInvariant_checked_run (id : Z) (ops : list TeamOp) :
  checkedRun (newTeam id) ops = true ->
  squadInvariant (runTeamOps (newTeam id) ops) = true.
Proof.
  intros Hck.
  destruct (squadSound_run ops (newTeam id) (squadSound_newTeam id) Hck) as [He _].
  unfold squadInvariant. rewrite He. apply Bool.eqb_reflx.
Qed.

Lemma squadInvariant_checked_run_witness :
  squadInvariant
    (runTeamOps (newTeam 3)
       [OpDeath; OpRevive; OpDeath; OpDeath; OpDeath; OpDeath; OpRoundWin;
        OpRoundReset; OpDeath]) = true.
Proof.
  apply (squadInvariant_checked_run 3
    [OpDeath; OpRevive; OpDeath; OpDeath; OpDeath; OpDeath; OpRoundWin;
     OpRoundReset; OpDeath]).
  reflexivity.
Defined.

(** C3, as stated, fails: a fifth death takes [teamPlayersAlive] from 0 to -1. *)
Lemma handleTeamDeath_below_zero :
  let eliminated := runTeamOps (newTeam 3) [OpDeath; OpDeath; OpDeath; OpDeath] in
  teamPlayersAlive eliminated = 0 /\
  teamEliminated eliminated = true /\
  teamPlayersAlive (handleTeamDeath eliminated) = -1.
Proof. repeat split. Qed.

(** C3 (amended): a death always lowers [teamPlayersAlive] by exactly one,
    with no floor: the counter is still non-negative afterwards exactly when
    the squad had a player alive before, and a death applied to a squad at 0
    leaves the counter at -1 and the eliminated flag as it was. *)
Theorem handleTeamDeath_unchecked_decrement (t : Team) :
  teamPlayersAlive (handleTeamDeath t) = teamPlayersAlive t - 1 /\
  (0 <= teamPlayersAlive (handleTeamDeath t) <-> 1 <= teamPlayersAlive t) /\
  (teamPlayersAlive t = 0 <->
   teamPlayersAlive (handleTeamDeath t) = -1) /\
  (teamPlayersAlive t <> 1 -> teamEliminated (handleTeamDeath t) = teamEliminated t).
Proof.
  rewrite handleTeamDeath_playersAlive, handleTeamDeath_eliminated.
  repeat split; try lia.
  intros H. destruct (Z.eqb_spec (teamPlayersAlive t) 1); [contradiction | reflexivity].
Qed.

(** ** Elimination within a round, and revives *)

Lemma applyTeamOp_keeps_eliminated t op :
  withinRound op = true -> teamEliminated t = true ->
  teamEliminated (applyTeamOp t op) = true.
Proof.
  intros Hop He. destruct op; try discriminate Hop; cbn [applyTeamOp].
  - reflexivity.
  - exact He.
  - rewrite handleTeamDeath_eliminated, He. apply orb_true_r.
  - exact He.
Qed.

Lemma runTeamOps_keeps_eliminated ops : forall t,
  forallb withinRound ops = true -> teamEliminated t = true ->
  teamEliminated (runTeamOps t ops) = true.
Proof.
  induction ops as [| op ops IH]; intros t Hops He; cbn in *.
  - exact He.
  - apply andb_true_iff in Hops as [Hop Hops].
    apply IH; [| apply applyTeamOp_keeps_eliminated]; assumption.
Qed.

Lemma canBeRevived_true p ts :
  canBeRevived p ts = true ->
  playerAlive p = false /\
  exists s, Map_get (playerTeam p) ts = Some s /\
            0 < teamRevivesLeft s /\ 0 < teamPlayersAlive s.
Proof.
  unfold canBeRevived. destruct (playerAlive p); [discriminate |].
  destruct (Map_get (playerTeam p) ts) as [s |]; [| discriminate].
  intros H. apply andb_true_iff in H as [Hr Ha].
  split; [reflexivity |]. exists s.
  unfold hasTeamRevivesLeft in Hr. unfold hasTeamPlayersAlive in Ha.
  apply Z.ltb_lt in Hr. apply Z.ltb_lt in Ha. auto.
Qed.

(** C8, as stated, fails in its second half: [canBeRevived] does not read
    [teamEliminated].  A squad eliminated by [handleTeamElimination] after one
    death keeps [teamPlayersAlive = 3], and its dead member is accepted. *)
Lemma canBeRevived_accepts_eliminated_squad :
  let squad := handleTeamElimination (handleTeamDeath (newTeam 2)) in
  let member := handlePlayerDeath (playerOn 8 2) in
  teamEliminated squad = true /\
  Map_get (playerTeam member) [(2, squad)] = Some squad /\
  canBeRevived member [(2, squad)] = true.
Proof. repeat split. Qed.

Lemma canBeRevived_iff q us :
  canBeRevived q us = true <->
  playerAlive q = false /\
  exists u, Map_get (playerTeam q) us = Some u /\
            0 < teamRevivesLeft u /\ 0 < teamPlayersAlive u.
Proof.
  split; [apply canBeRevived_true |].
  intros (Hdead & u & Hget & Hr & Ha). unfold canBeRevived.
  rewrite Hdead, Hget. unfold hasTeamRevivesLeft, hasTeamPlayersAlive.
  apply andb_true_iff. split; apply Z.ltb_lt; assumption.
Qed.

Lemma Map_get_sameCounters k us us' :
  sameCounters us us' ->
  match Map_get k us, Map_get k us' with
  | Some u, Some u' => teamRevivesLeft u = teamRevivesLeft u' /\
                       teamPlayersAlive u = teamPlayersAlive u'
  | None, None => True
  | _, _ => False
  end.
Proof.
  induction 1 as [| [k1 u1] [k2 u2] us us' (Hk & Hr & Ha) _ IH]; cbn; [exact I |].
  cbn in Hk, Hr, Ha. subst k2. destruct (k1 =? k); [split; assumption | exact IH].
Qed.

Lemma canBeRevived_sameCounters q us us' :
  sameCounters us us' -> canBeRevived q us' = canBeRevived q us.
Proof.
  intros H. pose proof (Map_get_sameCounters (playerTeam q) us us' H) as Hget.
  unfold canBeRevived. destruct (playerAlive q); [reflexivity |].
  destruct (Map_get (playerTeam q) us) as [u |], (Map_get (playerTeam q) us') as [u' |];
    try contradiction; [| reflexivity].
  destruct Hget as [Hr Ha]. unfold hasTeamRevivesLeft, hasTeamPlayersAlive.
  rewrite Hr, Ha. reflexivity.
Qed.

Lemma sameCounters_forEach_elimination us :
  sameCounters us (Map_forEach handleTeamElimination us).
Proof.
  induction us as [| [k u] us IH]; cbn; constructor; [cbn; auto | exact IH].
Qed.

(** C8 (amended): within a round (any sequence of calls other than the two
    resets) a squad whose eliminated flag is true keeps it true, so the flag
    goes from false to true at most once.  [canBeRevived] accepts exactly
    the dead players whose squad is found and has a revive left and
    [teamPlayersAlive > 0]; so it rejects every member of an eliminated squad
    whose counter agrees with the flag ([eliminated == (playersAlive == 0)]).
    It decides on the counters and does not read the eliminated flag: two
    maps whose squads agree on the two counters get the same answer whatever
    their flags, and marking every squad eliminated changes no answer. *)
Theorem eliminated_latch_and_revive_guard
    (t : Team) (ops : list TeamOp) (p : Player) (ts : JsMap Team) (s : Team) :
  forallb withinRound ops = true ->
  teamEliminated t = true ->
  Map_get (playerTeam p) ts = Some s ->
  squadInvariant s = true ->
  teamEliminated s = true ->
  teamEliminated (runTeamOps t ops) = true /\
  canBeRevived p ts = false /\
  canBeRevived p ts
  = negb (playerAlive p) && (hasTeamRevivesLeft s && hasTeamPlayersAlive s) /\
  (forall q us,
     canBeRevived q us = true <->
     playerAlive q = false /\
     exists u, Map_get (playerTeam q) us = Some u /\
               0 < teamRevivesLeft u /\ 0 < teamPlayersAlive u) /\
  (forall q us us', sameCounters us us' -> canBeRevived q us' = canBeRevived q us) /\
  (forall q us,
     canBeRevived q (Map_forEach handleTeamElimination us) = canBeRevived q us).
Proof.
  intros Hops Ht Hget Hinv Hs.
  split; [apply runTeamOps_keeps_eliminated; assumption |].
  assert (Heq : canBeRevived p ts
                = negb (playerAlive p) && (hasTeamRevivesLeft s && hasTeamPlayersAlive s)).
  { unfold canBeRevived. rewrite Hget. destruct (playerAlive p); reflexivity. }
  split; [| split; [exact Heq |]].
  - rewrite Heq. unfold squadInvariant in Hinv. rewrite Hs in Hinv.
    apply Bool.eqb_prop in Hinv. symmetry in Hinv. apply Z.eqb_eq in Hinv.
    unfold hasTeamPlayersAlive. rewrite Hinv. cbn.
    rewrite andb_false_r, andb_false_r. reflexivity.
  - split; [exact canBeRevived_iff |]. split; [exact canBeRevived_sameCounters |].
    intros q us. apply canBeRevived_sameCounters, sameCounters_forEach_elimination.
Qed.

Lemma eliminated_latch_and_revive_guard_witness :
  let squad := runTeamOps (newTeam 2) [OpDeath; OpDeath; OpDeath; OpDeath] in
  let member := handlePlayerDeath (playerOn 8 2) in
  teamEliminated (runTeamOps squad [OpRoundWin; OpRevive; OpDeath; OpElimination]) = true /\
  canBeRevived member [(2, squad)] = false /\
  canBeRevived member [(2, squad)]
  = negb (playerAlive member) && (hasTeamRevivesLeft squad && hasTeamPlayersAlive squad) /\
  (forall q us,
     canBeRevived q us = true <->
     playerAlive q = false /\
     exists u, Map_get (playerTeam q) us = Some u /\
               0 < teamRevivesLeft u /\ 0 < teamPlayersAlive u) /\
  (forall q us us', sameCounters us us' -> canBeRevived q us' = canBeRevived q us) /\
  (forall q us,
     canBeRevived q (Map_forEach handleTeamElimination us) = canBeRevived q us).
Proof.
  apply (eliminated_latch_and_revive_guard
           (runTeamOps (newTeam 2) [OpDeath; OpDeath; OpDeath; OpDeath])
           [OpRoundWin; OpRevive; OpDeath; OpElimination]
           (handlePlayerDeath (playerOn 8 2))
           [(2, runTeamOps (newTeam 2) [OpDeath; OpDeath; OpDeath; OpDeath])]
           (runTeamOps (newTeam 2) [OpDeath; OpDeath; OpDeath; OpDeath]));
    reflexivity.
Defined.

(** ** Game lifecycle *)

(** C10: [endGame] writes [gameStarted], [gameEnded] and [gameRound] and
    nothing else: the squads (with their scores, revives, players alive and
    eliminated flags), the players (alive, pinged, name, squad) and the four
    round fields are those of the state it was called on, and so are the
    answers of the three queries. *)
Theorem endGame_frame (g : GameState) :
  gameStarted (endGame g) = false /\
  gameEnded (endGame g) = true /\
  gameRound (endGame g) = -1 /\
  teams (endGame g) = teams g /\
  players (endGame g) = players g /\
  roundStarted (endGame g) = roundStarted g /\
  roundEnded (endGame g) = roundEnded g /\
  roundTimerSecs (endGame g) = roundTimerSecs g /\
  roundInSuddenDeath (endGame g) = roundInSuddenDeath g /\
  getAliveTeams (endGame g) = getAliveTeams g /\
  getAllPlayers (endGame g) = getAllPlayers g /\
  (forall k, getTeamById k (endGame g) = getTeamById k g).
Proof. repeat split. Qed.

(** C1 (the code does not do it): a death reported during sudden death.
    [OnPlayerDied] has an empty body, so the state after the notification is
    the state before it: squad 2 still has four players alive, none of them
    is marked dead and the squad is not eliminated.  [handleTeamDeath], the
    only death logic of the script, does not read [roundInSuddenDeath]
    either: one death on a full squad leaves three alive and the flag false. *)
Theorem OnPlayerDied_in_sudden_death :
  let g' := OnPlayerDied Z unit unit 8 13 tt tt inSuddenDeath in
  (forall (P D W : Type) (victim killer : P) (d : D) (u : W) (g : GameState),
     OnPlayerDied P D W victim killer d u g = g) /\
  roundInSuddenDeath inSuddenDeath = true /\
  g' = inSuddenDeath /\
  (exists s, getTeamById 2 g' = Some s /\
             teamPlayersAlive s = 4 /\ teamEliminated s = false) /\
  map playerId (playersOf 2 g') = [8; 9; 10; 11] /\
  forallb playerAlive (playersOf 2 g') = true /\
  teamPlayersAlive (handleTeamDeath (newTeam 2)) = 3 /\
  teamEliminated (handleTeamDeath (newTeam 2)) = false.
Proof.
  cbv zeta. repeat split.
  eexists. repeat split.
Qed.

(** C4 (the code does not do it): [startGame] sets the two flags and leaves
    the squad map alone; called on the freshly constructed state, as
    [OnGameModeStarted] does, it yields a started game with no squad at all,
    and the whole run of the script ends with the map still empty. *)
Theorem startGame_creates_no_team :
  gameStarted (startGame newGameState) = true /\
  gameEnded (startGame newGameState) = false /\
  teams (startGame newGameState) = [] /\
  Map_get 0 (teams (startGame newGameState)) = None /\
  (forall g, teams (startGame g) = teams g) /\
  teams (game (OnGameModeStarted noEvents initialWorld)) = [].
Proof. repeat split. Qed.

(** C5 (the code does not do it): [RoundState.startNewRound] of
    [part_000] tests [roundNumber > MAX_ROUNDS], so it throws below 0 and
    above 7 but accepts 7 itself; [GameState.startNewRound] of [Script.mts]
    has no test and accepts every number. *)
Theorem startNewRound_accepts_seven :
  (forall r, Part000.startNewRound 7 r
             = Part000.Normal
                 {| Part000.roundStarted := true;
                    Part000.roundEnded := false;
                    Part000.roundNumber := 7;
                    Part000.roundTimerSecs := 0;
                    Part000.roundTeams := Part000.roundTeams r;
                    Part000.roundPlayers := Part000.roundPlayers r;
                    Part000.isSuddenDeath := false |}) /\
  (forall n r, Part000.startNewRound n r
               = Part000.Throw (Part000.InvalidRoundNumber n)
               <-> n < 0 \/ 7 < n) /\
  (forall n g, gameRound (startNewRound n g) = n /\
               roundStarted (startNewRound n g) = true) /\
  gameRound (startNewRound (-1) newGameState) = -1 /\
  gameRound (startNewRound 7 newGameState) = 7.
Proof.
  split; [reflexivity |]. split; [| repeat split].
  intros n r. unfold Part000.startNewRound, Part000.MAX_ROUNDS.
  destruct (Z.ltb_spec n 0), (Z.ltb_spec 7 n); cbn; split; intros Hn;
    try reflexivity; try discriminate; lia.
Qed.

(** ** Outcome of a round *)

Lemma updateFirstAlive_single (f : Team -> Team) (m : JsMap Team) : forall s,
  filter (fun s => negb (isTeamEliminated s)) (Map_values m) = [s] ->
  exists m1 k m2,
    m = m1 ++ (k, s) :: m2 /\
    isTeamEliminated s = false /\
    updateFirstAlive f m = m1 ++ (k, f s) :: m2.
Proof.
  induction m as [| [k0 s0] m IH]; intros s Hf; cbn in *.
  - discriminate.
  - destruct (isTeamEliminated s0) eqn:He; cbn in Hf.
    + destruct (IH s Hf) as (m1 & k & m2 & -> & Hs & Hu).
      exists ((k0, s0) :: m1), k, m2. cbn. rewrite Hu. auto.
    + injection Hf as -> _.
      exists [], k0, m. cbn. auto.
Qed.

Lemma length_one {A} (l : list A) : List.length l = 1%nat -> exists x, l = [x].
Proof.
  destruct l as [| x [| y l]]; cbn; intros H; try discriminate.
  exists x. reflexivity.
Qed.

Lemma resolveRound_one (n : Z) (w : World) :
  List.length (getAliveTeams (game w)) = 1%nat ->
  exists m1 k s m2,
    getAliveTeams (game w) = [s] /\
    teams (game w) = m1 ++ (k, s) :: m2 /\
    game (resolveRound n w) = setTeams (m1 ++ (k, addRoundWin s) :: m2) (game w) /\
    teamScore (addRoundWin s) = teamScore s + 1 /\
    console (resolveRound n w) = console w ++ [RoundWonBy (n + 1) (teamName s)].
Proof.
  intros Hlen. destruct (length_one _ Hlen) as [s Hs].
  destruct (updateFirstAlive_single addRoundWin (teams (game w)) s Hs)
    as (m1 & k & m2 & Hm & _ & Hu).
  exists m1, k, s, m2. unfold resolveRound. rewrite Hs. cbn.
  rewrite Hu. auto.
Qed.

Lemma resolveRound_other (n : Z) (w : World) :
  List.length (getAliveTeams (game w)) <> 1%nat ->
  resolveRound n w
  = console_log (RoundEndedAlive (n + 1) (map teamName (getAliveTeams (game w)))) w.
Proof.
  intros Hlen. unfold resolveRound.
  destruct (getAliveTeams (game w)) as [| s [| s' l]]; cbn in *;
    [reflexivity | contradiction | reflexivity].
Qed.

(** C6: once the tick loop has exited, the count of squads that are not
    eliminated decides the outcome.  With exactly one, that squad's entry,
    and only it, is replaced by itself with [teamScore] one higher, and the
    round is logged as won by it; with none or several, the game state is
    unchanged and the round is logged as ended with the squads alive.  Some
    score changes if and only if the count is one. *)
Theorem resolveRound_by_alive_count (n : Z) (w : World) :
  let alive := getAliveTeams (game w) in
  let w' := resolveRound n w in
  (List.length alive = 1%nat ->
     exists m1 k s m2,
       alive = [s] /\
       teams (game w) = m1 ++ (k, s) :: m2 /\
       game w' = setTeams (m1 ++ (k, addRoundWin s) :: m2) (game w) /\
       teamScore (addRoundWin s) = teamScore s + 1 /\
       console w' = console w ++ [RoundWonBy (n + 1) (teamName s)]) /\
  (List.length alive <> 1%nat ->
     game w' = game w /\
     console w' = console w ++ [RoundEndedAlive (n + 1) (map teamName alive)]) /\
  (scores (game w') <> scores (game w) <-> List.length alive = 1%nat).
Proof.
  cbv zeta.
  split; [apply resolveRound_one |].
  split; [intros Hlen; rewrite (resolveRound_other n w Hlen); auto |].
  split.
  - intros Hneq.
    destruct (Nat.eq_dec (List.length (getAliveTeams (game w))) 1) as [E | E]; [exact E |].
    rewrite (resolveRound_other n w E) in Hneq. contradiction.
  - intros Hlen.
    destruct (resolveRound_one n w Hlen) as (m1 & k & s & m2 & _ & Hm & Hg & _ & _).
    rewrite Hg. unfold scores, Map_values. cbn. rewrite Hm.
    rewrite !map_app. cbn. intros Heq.
    apply app_inv_head in Heq. injection Heq as Heq. lia.
Qed.

(** ** The round timer *)

Lemma tickLoop_turn wait n s :
  tickLoop wait n s
  = match tickStep wait n s with
    | Some s' => tickLoop wait n s'
    | None => s
    end.
Proof.
  funelim (tickLoop wait n s).
  - rewrite e. reflexivity.
  - rewrite e. reflexivity.
Qed.

Lemma tickLoop_after_steps wait n k : forall s s',
  tickSteps wait n k s = Some s' -> tickLoop wait n s = tickLoop wait n s'.
Proof.
  induction k as [| k IH]; intros s s' Hk; cbn in Hk.
  - injection Hk as ->. reflexivity.
  - rewrite tickLoop_turn. destruct (tickStep wait n s) as [s1 |]; [| discriminate].
    apply IH. exact Hk.
Qed.

Lemma tickSteps_app wait n a b : forall s s',
  tickSteps wait n a s = Some s' ->
  tickSteps wait n (a + b) s = tickSteps wait n b s'.
Proof.
  induction a as [| a IH]; intros s s' Ha; cbn in *.
  - injection Ha as ->. reflexivity.
  - destruct (tickStep wait n s) as [s1 |]; [| discriminate].
    apply IH. exact Ha.
Qed.

Lemma onGame_noEvents n t w : onGame (noEvents n t) w = w.
Proof. destruct w. reflexivity. Qed.

Lemma tickStep_quiet n w t :
  (2 <= List.length (getAliveTeams (game w)))%nat ->
  t < ROUND_TIMER_SECS + SUDDEN_DEATH_TIMER_SECS ->
  tickStep noEvents n (w, t)
  = Some (if t =? ROUND_TIMER_SECS
          then onGame roundEnterSuddenDeath (console_log (EnteringSuddenDeath (n + 1)) w)
          else w,
          t + 1).
Proof.
  intros Hal Ht. unfold tickStep, tickGuard, tickBody. cbn [fst snd].
  rewrite onGame_noEvents.
  destruct (Nat.ltb_spec 1 (List.length (getAliveTeams (game w)))); [| lia].
  destruct (Z.ltb_spec t (ROUND_TIMER_SECS + SUDDEN_DEATH_TIMER_SECS)); [| lia].
  reflexivity.
Qed.

(** Turns of the loop that do not meet the threshold leave the world alone. *)
Lemma tickSteps_quiet n w k : forall t,
  (2 <= List.length (getAliveTeams (game w)))%nat ->
  t + Z.of_nat k <= ROUND_TIMER_SECS + SUDDEN_DEATH_TIMER_SECS ->
  (t + Z.of_nat k <= ROUND_TIMER_SECS \/ ROUND_TIMER_SECS < t) ->
  tickSteps noEvents n k (w, t) = Some (w, t + Z.of_nat k).
Proof.
  induction k as [| k IH]; intros t Hal Hend Hskip.
  - cbn. rewrite Z.add_0_r. reflexivity.
  - cbn [tickSteps]. rewrite tickStep_quiet by (assumption || lia).
    destruct (Z.eqb_spec t ROUND_TIMER_SECS); [lia |].
    rewrite IH by (assumption || lia). f_equal. f_equal. lia.
Qed.

Lemma getAliveTeams_startNewRound n g :
  List.length (getAliveTeams (startNewRound n g)) = List.length (teams g).
Proof.
  unfold getAliveTeams, startNewRound, Map_values, Map_forEach. cbn.
  induction (teams g) as [| [k s] m IH]; cbn; [reflexivity |].
  rewrite IH. reflexivity.
Qed.

Lemma forEach_pinged (m : JsMap Player) :
  forallb playerPinged (Map_values (Map_forEach (setPlayerPinged true) m)) = true.
Proof.
  induction m as [| [k p] m IH]; cbn; [reflexivity | exact IH].
Qed.

(** The timeline of a round with at least two squads during which no
    handler changes the game, turn by turn.  After [k <= 600] turns (that
    many waits completed) the world is the one [startNewRound] left, with
    [roundInSuddenDeath] false; the turn that starts with
    [roundTimerSecs = 600], the 601st, enters sudden death after its wait;
    nothing changes afterwards; the guard fails at [roundTimerSecs = 720],
    where the loop exits with every squad alive and the round is logged as
    ended without a winner. *)
Theorem quiet_round_timeline (n : Z) (w : World) :
  (2 <= List.length (teams (game w)))%nat ->
  let w1 := onGame (startNewRound n) w in
  let sd := onGame roundEnterSuddenDeath
              (console_log (EnteringSuddenDeath (n + 1)) w1) in
  (forall k, (k <= 600)%nat ->
     tickSteps noEvents n k (w1, 0) = Some (w1, Z.of_nat k)) /\
  roundInSuddenDeath (game w1) = false /\
  tickStep noEvents n (w1, 600) = Some (sd, 601) /\
  roundInSuddenDeath (game sd) = true /\
  forallb playerPinged (getAllPlayers (game sd)) = true /\
  (forall k, (601 <= k <= 720)%nat ->
     tickSteps noEvents n k (w1, 0) = Some (sd, Z.of_nat k)) /\
  tickStep noEvents n (sd, 720) = None /\
  tickLoop noEvents n (w1, 0) = (sd, 720) /\
  List.length (getAliveTeams (game sd)) = List.length (teams (game w)) /\
  resolveRound n sd
  = console_log (RoundEndedAlive (n + 1) (map teamName (getAliveTeams (game sd)))) sd /\
  scores (game (resolveRound n sd)) = scores (game sd).
Proof.
  intros Hteams w1 sd.
  assert (Hal1 : (2 <= List.length (getAliveTeams (game w1)))%nat).
  { unfold w1. cbn [game onGame]. rewrite getAliveTeams_startNewRound. exact Hteams. }
  assert (Hal : List.length (getAliveTeams (game sd)) = List.length (teams (game w))).
  { unfold sd, w1. cbn [game onGame console_log].
    exact (getAliveTeams_startNewRound n (game w)). }
  assert (Hal2 : (2 <= List.length (getAliveTeams (game sd)))%nat) by (rewrite Hal; exact Hteams).
  assert (Hbefore : forall k, (k <= 600)%nat ->
            tickSteps noEvents n k (w1, 0) = Some (w1, Z.of_nat k)).
  { intros k Hk. rewrite (tickSteps_quiet n w1 k 0); [reflexivity | assumption | |];
      unfold ROUND_TIMER_SECS, SUDDEN_DEATH_TIMER_SECS; lia. }
  assert (Henter : tickStep noEvents n (w1, 600) = Some (sd, 601)).
  { rewrite tickStep_quiet; [reflexivity | assumption |].
    unfold ROUND_TIMER_SECS, SUDDEN_DEATH_TIMER_SECS. lia. }
  assert (Hafter : forall k, (601 <= k <= 720)%nat ->
            tickSteps noEvents n k (w1, 0) = Some (sd, Z.of_nat k)).
  { intros k Hk. replace k with (600 + (1 + (k - 601)))%nat by lia.
    rewrite (tickSteps_app noEvents n 600 _ (w1, 0) (w1, 600)) by (apply Hbefore; lia).
    cbn [tickSteps Nat.add]. rewrite Henter.
    rewrite (tickSteps_quiet n sd (k - 601) 601); [f_equal; f_equal; lia | assumption | |];
      unfold ROUND_TIMER_SECS, SUDDEN_DEATH_TIMER_SECS; lia. }
  assert (Hexit : tickStep noEvents n (sd, 720) = None).
  { unfold tickStep, tickGuard. cbn [fst snd].
    rewrite andb_false_r. reflexivity. }
  assert (Hres : resolveRound n sd
            = console_log (RoundEndedAlive (n + 1) (map teamName (getAliveTeams (game sd)))) sd).
  { apply resolveRound_other. lia. }
  repeat split.
  - exact Hbefore.
  - exact Henter.
  - unfold sd. cbn [game onGame console_log roundEnterSuddenDeath getAllPlayers players].
    apply forEach_pinged.
  - exact Hafter.
  - exact Hexit.
  - rewrite (tickLoop_after_steps noEvents n 720 (w1, 0) (sd, 720)) by (apply Hafter; lia).
    rewrite tickLoop_turn, Hexit. reflexivity.
  - exact Hal.
  - exact Hres.
  - rewrite Hres. reflexivity.
Qed.

Lemma quiet_round_timeline_witness :
  let w := {| game := startGame fullLobby; console := [GameStartedLine; StartingRound 1] |} in
  let w1 := onGame (startNewRound 0) w in
  let sd := onGame roundEnterSuddenDeath
              (console_log (EnteringSuddenDeath (0 + 1)) w1) in
  (forall k, (k <= 600)%nat ->
     tickSteps noEvents 0 k (w1, 0) = Some (w1, Z.of_nat k)) /\
  roundInSuddenDeath (game w1) = false /\
  tickStep noEvents 0 (w1, 600) = Some (sd, 601) /\
  roundInSuddenDeath (game sd) = true /\
  forallb playerPinged (getAllPlayers (game sd)) = true /\
  (forall k, (601 <= k <= 720)%nat ->
     tickSteps noEvents 0 k (w1, 0) = Some (sd, Z.of_nat k)) /\
  tickStep noEvents 0 (sd, 720) = None /\
  tickLoop noEvents 0 (w1, 0) = (sd, 720) /\
  List.length (getAliveTeams (game sd)) = List.length (teams (game w)) /\
  resolveRound 0 sd
  = console_log (RoundEndedAlive (0 + 1) (map teamName (getAliveTeams (game sd)))) sd /\
  scores (game (resolveRound 0 sd)) = scores (game sd).
Proof.
  apply (quiet_round_timeline 0
           {| game := startGame fullLobby; console := [GameStartedLine; StartingRound 1] |}).
  cbn. lia.
Defined.

(** C9 (the code does not do it as timed): a round of six squads without
    deaths.  The loop waits, then tests [roundTimerSecs === 600], then
    increments: after 600 completed waits the counter reads 600 but the flag
    is still false and nobody is pinged; sudden death is entered by the
    601st turn, after its wait; the loop exits after 720 waits, with the
    round logged as ended without a winner.  Sudden death so covers the 119
    waits of turns 602 to 720, not the 120 of the two-minute timer. *)
Theorem sudden_death_entered_by_turn_601 :
  let w1 := {| game := startNewRound 0 (startGame fullLobby); console := [] |} in
  let sd := onGame roundEnterSuddenDeath (console_log (EnteringSuddenDeath 1) w1) in
  tickSteps noEvents 0 600 (w1, 0) = Some (w1, 600) /\
  roundInSuddenDeath (game w1) = false /\
  existsb playerPinged (getAllPlayers (game w1)) = false /\
  tickSteps noEvents 0 601 (w1, 0) = Some (sd, 601) /\
  roundInSuddenDeath (game sd) = true /\
  forallb playerPinged (getAllPlayers (game sd)) = true /\
  tickSteps noEvents 0 119 (sd, 601) = Some (sd, 720) /\
  tickStep noEvents 0 (sd, 720) = None /\
  tickSteps noEvents 0 720 (w1, 0) = Some (sd, 720) /\
  tickLoop noEvents 0 (w1, 0) = (sd, 720) /\
  resolveRound 0 sd
  = console_log (RoundEndedAlive 1 (map teamName (getAliveTeams (game sd)))) sd /\
  scores (game (resolveRound 0 sd)) = scores (game sd).
Proof.
  cbv zeta. repeat split; vm_compute; reflexivity.
Qed.

(** ** The game loop *)

Lemma gameLoop_turn wait s :
  gameLoop wait s
  = match gameStep wait s with
    | Some s' => gameLoop wait s'
    | None => s
    end.
Proof.
  funelim (gameLoop wait s).
  - rewrite e. reflexivity.
  - rewrite e. reflexivity.
Qed.

Lemma gameLoop_exit wait s : gameStep wait (gameLoop wait s) = None.
Proof.
  funelim (gameLoop wait s).
  - assumption.
  - assumption.
Qed.

Lemma gameLoop_steps wait s :
  exists k, gameSteps wait k s = Some (gameLoop wait s).
Proof.
  funelim (gameLoop wait s).
  - destruct H as [k Hk]. exists (S k). cbn. rewrite e. exact Hk.
  - exists O. reflexivity.
Qed.

Lemma gameSteps_rounds wait k : forall s s',
  gameSteps wait k s = Some s' ->
  snd s' = snd s + Z.of_nat k /\
  (k <> O -> snd s' <= MAX_NUMBER_OF_ROUNDS).
Proof.
  induction k as [| k IH]; intros s s' Hk; cbn [gameSteps] in Hk.
  - injection Hk as <-. split; [lia | congruence].
  - unfold gameStep, gameGuard in Hk.
    destruct (forallb _ _); cbn [andb] in Hk; [| discriminate].
    destruct (Z.ltb_spec (snd s) MAX_NUMBER_OF_ROUNDS); [| discriminate].
    destruct (IH _ _ Hk) as [Hn Hmax]. cbn [snd] in Hn. split; [lia |].
    intros _. destruct k; [| apply Hmax; congruence].
    cbn in Hn. lia.
Qed.

Lemma winners_nil_iff g :
  forallb (fun team => negb (hasWonGame team)) (Map_values (teams g)) = true
  <-> winners g = [].
Proof.
  unfold winners. induction (Map_values (teams g)) as [| s l IH]; cbn.
  - tauto.
  - destruct (hasWonGame s); cbn; [split; discriminate | exact IH].
Qed.

Lemma gameLoop_stops wait s :
  winners (game (fst s)) <> [] -> gameLoop wait s = s.
Proof.
  intros Hw. rewrite gameLoop_turn. unfold gameStep, gameGuard.
  destruct (forallb _ _) eqn:Hall; [| reflexivity].
  apply winners_nil_iff in Hall. contradiction.
Qed.

Lemma winners_length g :
  List.length (winners g) = List.length (filter (Z.leb ROUNDS_TO_WIN) (scores g)).
Proof.
  unfold winners, scores. induction (Map_values (teams g)) as [| s l IH]; cbn.
  - reflexivity.
  - unfold hasWonGame at 1. destruct (ROUNDS_TO_WIN <=? teamScore s); cbn; rewrite IH;
      reflexivity.
Qed.

Lemma bumped_winners l l' :
  bumped l l' -> filter (Z.leb ROUNDS_TO_WIN) l = [] ->
  (List.length (filter (Z.leb ROUNDS_TO_WIN) l') <= 1)%nat.
Proof.
  intros [-> | (l1 & x & l2 & -> & ->)] Hnil.
  - rewrite Hnil. cbn. lia.
  - rewrite filter_app in Hnil. apply app_eq_nil in Hnil as [H1 H2]. cbn in H2.
    destruct (ROUNDS_TO_WIN <=? x); [discriminate |].
    rewrite filter_app, H1. cbn. rewrite H2.
    destruct (ROUNDS_TO_WIN <=? x + 1); cbn; lia.
Qed.

Lemma resolveRound_bumped n w :
  bumped (scores (game w)) (scores (game (resolveRound n w))).
Proof.
  destruct (Nat.eq_dec (List.length (getAliveTeams (game w))) 1) as [E | E].
  - destruct (resolveRound_one n w E) as (m1 & k & s & m2 & _ & Hm & Hg & _ & _).
    right. exists (scores (setTeams m1 (game w))), (teamScore s),
                  (scores (setTeams m2 (game w))).
    rewrite Hg. unfold scores, Map_values. cbn. rewrite Hm, !map_app. cbn. auto.
  - left. rewrite (resolveRound_other n w E). reflexivity.
Qed.

Lemma scores_startNewRound n g : scores (startNewRound n g) = scores g.
Proof.
  unfold scores, startNewRound, Map_values, Map_forEach. cbn.
  rewrite !map_map. reflexivity.
Qed.

Lemma teams_endRound w : teams (game (endRound w)) = teams (game w).
Proof.
  unfold endRound. destruct (roundStarted (game w)); reflexivity.
Qed.

Section GameLoop.

(** What the host does to [game] while the loop is suspended; it may
    record deaths and revives but it does not award rounds. *)
Variable wait : HostWait.
Hypothesis wait_scores : forall n t g, scores (wait n t g) = scores g.

Lemma tickStep_scores n s s' :
  tickStep wait n s = Some s' -> scores (game (fst s')) = scores (game (fst s)).
Proof.
  unfold tickStep, tickBody.
  destruct (tickGuard _ _); [| discriminate].
  intros [= <-]. cbn [fst].
  destruct (snd s =? ROUND_TIMER_SECS); cbn [fst game onGame console_log].
  - exact (wait_scores n (snd s) (game (fst s))).
  - apply wait_scores.
Qed.

Lemma tickLoop_scores n s :
  scores (game (fst (tickLoop wait n s))) = scores (game (fst s)).
Proof.
  funelim (tickLoop wait n s).
  - match goal with IH : scores _ = scores _ |- _ => rewrite IH end.
    eapply tickStep_scores. eassumption.
  - reflexivity.
Qed.

Lemma playRound_bumped n w :
  bumped (scores (game w)) (scores (game (playRound wait n w))).
Proof.
  unfold playRound.
  set (w2 := onGame (startNewRound n) (console_log (StartingRound (n + 1)) w)).
  set (w3 := fst (tickLoop wait n (w2, 0))).
  assert (H3 : scores (game w3) = scores (game w)).
  { unfold w3. rewrite tickLoop_scores. exact (scores_startNewRound n (game w)). }
  unfold scores at 2. rewrite teams_endRound. fold (scores (game (resolveRound n w3))).
  rewrite <- H3. apply resolveRound_bumped.
Qed.

Lemma gameStep_winners s s' :
  gameStep wait s = Some s' -> (List.length (winners (game (fst s'))) <= 1)%nat.
Proof.
  unfold gameStep, gameGuard.
  destruct (forallb _ _) eqn:Hall; cbn [andb]; [| discriminate].
  destruct (snd s <? MAX_NUMBER_OF_ROUNDS); [| discriminate].
  intros [= <-]. cbn [fst].
  apply winners_nil_iff in Hall.
  rewrite winners_length. eapply bumped_winners; [apply playRound_bumped |].
  apply length_zero_iff_nil. rewrite <- winners_length, Hall. reflexivity.
Qed.

Lemma gameLoop_winners s :
  (List.length (winners (game (fst s))) <= 1)%nat ->
  (List.length (winners (game (fst (gameLoop wait s)))) <= 1)%nat.
Proof.
  funelim (gameLoop wait s); intros Hle.
  - match goal with IH : _ -> (_ <= 1)%nat |- _ => apply IH end.
    eapply gameStep_winners. eassumption.
  - exact Hle.
Qed.

(** C7: the script run from a state in which no squad has two wins yet.
    The outer loop plays rounds 0, 1, ... one after the other ([played]
    of them, at most seven) and stops at the first round boundary where
    its guard fails; from a state in which some squad has won, it plays
    nothing more.  At that point either exactly one squad has
    [teamScore >= 2], the game is logged as won by it, and no guard failed
    earlier; or no squad has, seven rounds were played and the game is
    logged as lost.  Either way [endGame] runs last: [gameStarted] is
    false, [gameEnded] is true, [gameRound] is -1, the squads untouched. *)
Theorem OnGameModeStarted_ends_game (w : World) :
  winners (game w) = [] ->
  let started := console_log GameStartedLine (onGame startGame w) in
  let last := fst (gameLoop wait (started, 0)) in
  let played := snd (gameLoop wait (started, 0)) in
  let final := OnGameModeStarted wait w in
  (exists k, (k <= 7)%nat /\ played = Z.of_nat k /\
             gameSteps wait k (started, 0) = Some (last, played)) /\
  gameStep wait (last, played) = None /\
  (forall s, winners (game (fst s)) <> [] -> gameLoop wait s = s) /\
  ((exists winner,
      winners (game last) = [winner] /\
      console final = console last ++ [GameWonBy (teamName winner) (played + 1)])
   \/
   (winners (game last) = [] /\
    played = MAX_NUMBER_OF_ROUNDS /\
    console final = console last ++ [GameLost MAX_NUMBER_OF_ROUNDS])) /\
  gameStarted (game final) = false /\
  gameEnded (game final) = true /\
  gameRound (game final) = -1 /\
  teams (game final) = teams (game last).
Proof.
  intros Hinit started last played final.
  assert (Hpair : gameLoop wait (started, 0) = (last, played)).
  { unfold last, played. destruct (gameLoop wait (started, 0)); reflexivity. }
  assert (Hexit : gameStep wait (last, played) = None).
  { rewrite <- Hpair. apply gameLoop_exit. }
  assert (Hsteps : exists k, (k <= 7)%nat /\ played = Z.of_nat k /\
                     gameSteps wait k (started, 0) = Some (last, played)).
  { destruct (gameLoop_steps wait (started, 0)) as [k Hk]. rewrite Hpair in Hk.
    destruct (gameSteps_rounds wait k _ _ Hk) as [Hn Hmax]. cbn [snd] in Hn, Hmax.
    exists k. split; [| split; [lia | exact Hk]].
    destruct k; [lia |]. unfold MAX_NUMBER_OF_ROUNDS in Hmax.
    assert (played <= 7) by (apply Hmax; congruence). lia. }
  assert (Hle : (List.length (winners (game last)) <= 1)%nat).
  { unfold last. apply gameLoop_winners.
    change (winners (game (fst (started, 0)))) with (winners (game w)).
    rewrite Hinit. cbn. lia. }
  assert (Hfinal : final
            = onGame endGame
                (match winners (game last) with
                 | [winner] => console_log (GameWonBy (teamName winner) (played + 1)) last
                 | _ => console_log (GameLost MAX_NUMBER_OF_ROUNDS) last
                 end)).
  { unfold final, OnGameModeStarted. fold started. rewrite Hpair. reflexivity. }
  split; [exact Hsteps |]. split; [exact Hexit |].
  split; [intros s; apply gameLoop_stops |].
  destruct (winners (game last)) as [| winner [| other l]] eqn:Hw.
  - split; [| rewrite Hfinal; repeat split].
    right. split; [reflexivity |]. split; [| rewrite Hfinal; reflexivity].
    unfold gameStep, gameGuard in Hexit. cbn [fst snd] in Hexit.
    apply winners_nil_iff in Hw. rewrite Hw in Hexit. cbn [andb] in Hexit.
    destruct (Z.ltb_spec played MAX_NUMBER_OF_ROUNDS); [discriminate |].
    destruct Hsteps as (k & Hk & -> & _). unfold MAX_NUMBER_OF_ROUNDS in *. lia.
  - split; [| rewrite Hfinal; repeat split].
    left. exists winner. split; [reflexivity |]. rewrite Hfinal. reflexivity.
  - cbn in Hle. lia.
Qed.

End GameLoop.

Lemma OnGameModeStarted_ends_game_witness :
  let w := {| game := fullLobby; console := [] |} in
  let started := console_log GameStartedLine (onGame startGame w) in
  let last := fst (gameLoop noEvents (started, 0)) in
  let played := snd (gameLoop noEvents (started, 0)) in
  let final := OnGameModeStarted noEvents w in
  (exists k, (k <= 7)%nat /\ played = Z.of_nat k /\
             gameSteps noEvents k (started, 0) = Some (last, played)) /\
  gameStep noEvents (last, played) = None /\
  (forall s, winners (game (fst s)) <> [] -> gameLoop noEvents s = s) /\
  ((exists winner,
      winners (game last) = [winner] /\
      console final = console last ++ [GameWonBy (teamName winner) (played + 1)])
   \/
   (winners (game last) = [] /\
    played = MAX_NUMBER_OF_ROUNDS /\
    console final = console last ++ [GameLost MAX_NUMBER_OF_ROUNDS])) /\
  gameStarted (game final) = false /\
  gameEnded (game final) = true /\
  gameRound (game final) = -1 /\
  teams (game final) = teams (game last).
Proof.
  apply (OnGameModeStarted_ends_game noEvents (fun _ _ _ => eq_refl)
           {| game := fullLobby; console := [] |}).
  reflexivity.
Defined.

(** ** Runs of the script on sample lobbies *)

(** No squad and no event: seven rounds end at once without a winner. *)
Example run_empty_lobby :
  console (OnGameModeStarted noEvents initialWorld)
  = [GameStartedLine;
     StartingRound 1; RoundEndedAlive 1 [];
     StartingRound 2; RoundEndedAlive 2 [];
     StartingRound 3; RoundEndedAlive 3 [];
     StartingRound 4; RoundEndedAlive 4 [];
     StartingRound 5; RoundEndedAlive 5 [];
     StartingRound 6; RoundEndedAlive 6 [];
     StartingRound 7; RoundEndedAlive 7 [];
     GameLost 7].
Proof. vm_compute. reflexivity. Qed.

(** Squad 3 wins rounds 0 and 2 and squad 0 round 1: the game stops after
    the third round. *)
Example run_delta_wins_in_three :
  let final := OnGameModeStarted (lastStanding deltaAlfaDelta)
                 {| game := fullLobby; console := [] |} in
  console final
  = [GameStartedLine;
     StartingRound 1; RoundWonBy 1 "Delta";
     StartingRound 2; RoundWonBy 2 "Alfa";
     StartingRound 3; RoundWonBy 3 "Delta";
     GameWonBy "Delta" 4] /\
  scores (game final) = [1; 0; 0; 2; 0; 0] /\
  gameEnded (game final) = true.
Proof. vm_compute. repeat split. Qed.

Example run_five_deaths :
  let t := runTeamOps (newTeam 3) [OpDeath; OpDeath; OpDeath; OpDeath; OpDeath] in
  teamPlayersAlive t = -1 /\ teamEliminated t = true.
Proof. split; reflexivity. Qed.


(** * Further properties of the script *)

(** ** Squads *)

Lemma applyTeamOp_identity t op :
  teamId (applyTeamOp t op) = teamId t /\ teamName (applyTeamOp t op) = teamName t.
Proof.
  destruct op; cbn; try (split; reflexivity).
  unfold handleTeamDeath. cbn. destruct (teamPlayersAlive t - 1 =? 0); split; reflexivity.
Qed.

Lemma runTeamOps_identity ops : forall t,
  teamId (runTeamOps t ops) = teamId t /\ teamName (runTeamOps t ops) = teamName t.
Proof.
  induction ops as [| op ops IH]; intros t; cbn.
  - split; reflexivity.
  - destruct (IH (applyTeamOp t op)) as [Hi Hn].
    destruct (applyTeamOp_identity t op) as [Hi' Hn'].
    unfold runTeamOps in Hi, Hn. rewrite Hi, Hn. auto.
Qed.

Lemma applyTeamOp_score t op :
  isGameReset op = false ->
  teamScore (applyTeamOp t op) = teamScore t + (if isRoundWin op then 1 else 0).
Proof.
  destruct op; cbn; intros Hop; try discriminate; try lia.
  unfold handleTeamDeath. cbn. destruct (teamPlayersAlive t - 1 =? 0); cbn; lia.
Qed.

Lemma runTeamOps_score ops : forall t,
  forallb (fun op => negb (isGameReset op)) ops = true ->
  teamScore (runTeamOps t ops) = teamScore t + countRoundWins ops.
Proof.
  unfold countRoundWins.
  induction ops as [| op ops IH]; intros t Hops; cbn in *.
  - lia.
  - apply andb_true_iff in Hops as [Hop Hops]. apply negb_true_iff in Hop.
    unfold runTeamOps in IH. rewrite IH by assumption.
    rewrite applyTeamOp_score by assumption.
    destruct (isRoundWin op); cbn [List.length]; lia.
Qed.

(** X1: [gameReset] forgets everything that happened to a squad: whatever
    calls were made on it, a game reset gives the squad a game reset would
    have given at once, and a squad that was built by the constructor is
    back to its constructed state (same id and name, score 0, four revives,
    four players alive, not eliminated). *)
Theorem gameReset_restores_constructed (t : Team) (id : Z) (ops : list TeamOp) :
  gameReset (runTeamOps t ops) = gameReset t /\
  gameReset (runTeamOps (newTeam id) ops) = newTeam id.
Proof.
  assert (H : forall u, gameReset (runTeamOps u ops) = gameReset u).
  { intros u. destruct (runTeamOps_identity ops u) as [Hi Hn].
    unfold gameReset. rewrite Hi, Hn. reflexivity. }
  split; [apply H |]. rewrite H. reflexivity.
Qed.

(** X2: [roundReset] undoes the deaths, revives and eliminations of a round
    and keeps the score: after calls none of which is a game reset, it gives
    the squad [roundReset] gave before them, with [teamScore] raised by the
    number of round wins among the calls. *)
Theorem roundReset_keeps_score_only (t : Team) (ops : list TeamOp) :
  forallb (fun op => negb (isGameReset op)) ops = true ->
  roundReset (runTeamOps t ops)
  = {| teamId := teamId t;
       teamName := teamName t;
       teamScore := teamScore t + countRoundWins ops;
       teamRevivesLeft := INITIAL_TEAM_REVIVES;
       teamPlayersAlive := 4;
       teamEliminated := false |}.
Proof.
  intros Hops. destruct (runTeamOps_identity ops t) as [Hi Hn].
  unfold roundReset. rewrite Hi, Hn, runTeamOps_score by assumption. reflexivity.
Qed.

Lemma roundReset_keeps_score_only_witness :
  roundReset (runTeamOps (newTeam 4)
                [OpDeath; OpRoundWin; OpDeath; OpRevive; OpElimination; OpRoundReset])
  = {| teamId := teamId (newTeam 4);
       teamName := teamName (newTeam 4);
       teamScore := teamScore (newTeam 4)
                    + countRoundWins
                        [OpDeath; OpRoundWin; OpDeath; OpRevive; OpElimination; OpRoundReset];
       teamRevivesLeft := INITIAL_TEAM_REVIVES;
       teamPlayersAlive := 4;
       teamEliminated := false |}.
Proof.
  apply (roundReset_keeps_score_only (newTeam 4)
           [OpDeath; OpRoundWin; OpDeath; OpRevive; OpElimination; OpRoundReset]).
  reflexivity.
Defined.

(** X3: only [addRoundWin] and [gameReset] touch the score.  From a
    constructed squad and without a game reset, [teamScore] is the number of
    round wins, so [hasWonGame] answers true exactly from the second round
    win on; deaths, revives, eliminations and round resets do not matter. *)
Theorem hasWonGame_counts_round_wins (id : Z) (ops : list TeamOp) :
  forallb (fun op => negb (isGameReset op)) ops = true ->
  teamScore (runTeamOps (newTeam id) ops) = countRoundWins ops /\
  (hasWonGame (runTeamOps (newTeam id) ops) = true <-> 2 <= countRoundWins ops).
Proof.
  intros Hops. pose proof (runTeamOps_score ops (newTeam id) Hops) as Hs.
  cbn [teamScore newTeam] in Hs. rewrite Z.add_0_l in Hs.
  split; [exact Hs |].
  unfold hasWonGame, ROUNDS_TO_WIN. rewrite Hs. apply Z.leb_le.
Qed.

Lemma hasWonGame_counts_round_wins_witness :
  teamScore (runTeamOps (newTeam 1) [OpRoundWin; OpDeath; OpRoundReset; OpRoundWin])
  = countRoundWins [OpRoundWin; OpDeath; OpRoundReset; OpRoundWin] /\
  (hasWonGame (runTeamOps (newTeam 1) [OpRoundWin; OpDeath; OpRoundReset; OpRoundWin]) = true
   <-> 2 <= countRoundWins [OpRoundWin; OpDeath; OpRoundReset; OpRoundWin]).
Proof.
  apply (hasWonGame_counts_round_wins 1 [OpRoundWin; OpDeath; OpRoundReset; OpRoundWin]).
  reflexivity.
Defined.

Lemma revivesChecked_budget ops : forall t,
  0 <= teamRevivesLeft t ->
  revivesChecked t ops = true ->
  teamRevivesLeft (runTeamOps t ops) = teamRevivesLeft t - countRevives ops /\
  0 <= teamRevivesLeft (runTeamOps t ops).
Proof.
  unfold countRevives.
  induction ops as [| op ops IH]; intros t Hpos Hck; cbn in *.
  - split; lia.
  - apply andb_true_iff in Hck as [Hck Hrest].
    apply andb_true_iff in Hck as [Hop Hrev].
    assert (Hstep : teamRevivesLeft (applyTeamOp t op)
                    = teamRevivesLeft t - (if isRevive op then 1 else 0)
                    /\ 0 <= teamRevivesLeft (applyTeamOp t op)).
    { destruct op; cbn in *; try discriminate; try (split; lia).
      - unfold squadCanRevive, hasTeamRevivesLeft in Hrev.
        apply andb_true_iff in Hrev as [Hr _]. apply Z.ltb_lt in Hr. split; lia.
      - unfold handleTeamDeath. cbn.
        destruct (teamPlayersAlive t - 1 =? 0); cbn; split; lia. }
    destruct Hstep as [Hs Hs0].
    destruct (IH (applyTeamOp t op) Hs0 Hrest) as [H1 H2].
    unfold runTeamOps in H1, H2. split; [| exact H2].
    rewrite H1, Hs. destruct (isRevive op); cbn [List.length]; lia.
Qed.

(** X4: four revives per squad and round.  Through one round (no reset)
    in which every revive passed the squad test of [canBeRevived], the
    revives left are four minus the revives made, never negative: at most
    four revives are made, and after the fourth the test fails whatever the
    number of players alive. *)
Theorem revives_bounded_by_four (t : Team) (ops : list TeamOp) :
  revivesChecked (roundReset t) ops = true ->
  teamRevivesLeft (runTeamOps (roundReset t) ops) = 4 - countRevives ops /\
  countRevives ops <= 4 /\
  (countRevives ops = 4 -> squadCanRevive (runTeamOps (roundReset t) ops) = false).
Proof.
  intros Hck.
  destruct (revivesChecked_budget ops (roundReset t)) as [H1 H2];
    [cbn; unfold INITIAL_TEAM_REVIVES; lia | exact Hck |].
  cbn [teamRevivesLeft roundReset] in H1. unfold INITIAL_TEAM_REVIVES in H1.
  split; [exact H1 |]. split; [lia |].
  intros H4. unfold squadCanRevive, hasTeamRevivesLeft. rewrite H1, H4. reflexivity.
Qed.

Lemma revives_bounded_by_four_witness :
  teamRevivesLeft
    (runTeamOps (roundReset (newTeam 5))
       [OpDeath; OpRevive; OpDeath; OpRevive; OpDeath; OpRevive; OpDeath; OpRevive; OpDeath])
  = 4 - countRevives
          [OpDeath; OpRevive; OpDeath; OpRevive; OpDeath; OpRevive; OpDeath; OpRevive; OpDeath] /\
  countRevives
    [OpDeath; OpRevive; OpDeath; OpRevive; OpDeath; OpRevive; OpDeath; OpRevive; OpDeath] <= 4 /\
  (countRevives
     [OpDeath; OpRevive; OpDeath; OpRevive; OpDeath; OpRevive; OpDeath; OpRevive; OpDeath] = 4 ->
   squadCanRevive
     (runTeamOps (roundReset (newTeam 5))
        [OpDeath; OpRevive; OpDeath; OpRevive; OpDeath; OpRevive; OpDeath; OpRevive; OpDeath])
   = false).
Proof.
  apply (revives_bounded_by_four (newTeam 5)
    [OpDeath; OpRevive; OpDeath; OpRevive; OpDeath; OpRevive; OpDeath; OpRevive; OpDeath]).
  reflexivity.
Defined.

(** X5: the constructor names squads 0 to 5 after the table, each with a
    name of its own, and every other id ["Unknown"]. *)
Theorem newTeam_names (i j : Z) :
  (teamName (newTeam i) = "Unknown"%string <-> (i < 0 \/ 5 < i)) /\
  (0 <= i <= 5 -> 0 <= j <= 5 -> teamName (newTeam i) = teamName (newTeam j) -> i = j).
Proof.
  assert (Hin : forall k, 0 <= k <= 5 ->
            k = 0 \/ k = 1 \/ k = 2 \/ k = 3 \/ k = 4 \/ k = 5) by (intros; lia).
  split; [split |].
  - intros Hn. destruct (Z_lt_dec i 0) as [| H0]; [auto |].
    destruct (Z_lt_dec 5 i) as [| H5]; [auto |]. exfalso.
    destruct (Hin i ltac:(lia)) as [-> | [-> | [-> | [-> | [-> | ->]]]]];
      cbn in Hn; discriminate.
  - intros [Hi | Hi]; unfold newTeam, TeamIdMapping; cbn.
    + destruct i; try lia; reflexivity.
    + destruct i as [| p |]; try lia.
      do 3 (destruct p as [p | p |]; try lia; try reflexivity).
  - intros Hi Hj.
    destruct (Hin i Hi) as [-> | [-> | [-> | [-> | [-> | ->]]]]];
    destruct (Hin j Hj) as [-> | [-> | [-> | [-> | [-> | ->]]]]];
      cbn; intros Hn; try reflexivity; discriminate.
Qed.

(** ** The game state *)

Lemma Map_get_forEach {V} (f : V -> V) (k : Z) (m : JsMap V) :
  Map_get k (Map_forEach f m) = option_map f (Map_get k m).
Proof.
  induction m as [| [k' v] m IH]; cbn; [reflexivity |].
  destruct (k' =? k); [reflexivity | exact IH].
Qed.

Lemma Map_keys_forEach {V} (f : V -> V) (m : JsMap V) :
  Map_keys (Map_forEach f m) = Map_keys m.
Proof.
  unfold Map_keys, Map_forEach. rewrite map_map. reflexivity.
Qed.

Lemma Map_forEach_forEach {V} (f h : V -> V) (m : JsMap V) :
  Map_forEach f (Map_forEach h m) = Map_forEach (fun v => f (h v)) m.
Proof.
  unfold Map_forEach. rewrite map_map. reflexivity.
Qed.

Lemma Map_forEach_ext {V} (f h : V -> V) (m : JsMap V) :
  (forall v, f v = h v) -> Map_forEach f m = Map_forEach h m.
Proof.
  intros E. unfold Map_forEach. apply map_ext. intros [k v]. cbn. rewrite E. reflexivity.
Qed.

Lemma Map_values_forEach {V} (f : V -> V) (m : JsMap V) :
  Map_values (Map_forEach f m) = map f (Map_values m).
Proof.
  unfold Map_values, Map_forEach. rewrite !map_map. reflexivity.
Qed.

(** X6: what [startNewRound] resets and what it leaves.  Whatever the
    state, afterwards every squad has four revives, four players alive and
    is not eliminated, so all squads are alive squads; no player is pinged;
    the scores, the keys of both maps and every player's alive flag are as
    before: a player who died in the last round is still dead while his
    squad counts four alive. *)
Theorem startNewRound_resets (n : Z) (g : GameState) :
  let g' := startNewRound n g in
  Forall (fun s => teamRevivesLeft s = 4 /\ teamPlayersAlive s = 4 /\
                   teamEliminated s = false) (Map_values (teams g')) /\
  getAliveTeams g' = Map_values (teams g') /\
  Forall (fun p => playerPinged p = false) (getAllPlayers g') /\
  map playerAlive (getAllPlayers g') = map playerAlive (getAllPlayers g) /\
  map playerTeam (getAllPlayers g') = map playerTeam (getAllPlayers g) /\
  scores g' = scores g /\
  Map_keys (teams g') = Map_keys (teams g) /\
  Map_keys (players g') = Map_keys (players g).
Proof.
  cbv zeta. unfold getAliveTeams, getAllPlayers, scores.
  cbn [teams players startNewRound]. rewrite !Map_values_forEach, !Map_keys_forEach.
  repeat split.
  - induction (Map_values (teams g)) as [| s l IH]; cbn; constructor; auto.
  - induction (Map_values (teams g)) as [| s l IH]; cbn; [reflexivity |].
    rewrite IH. reflexivity.
  - induction (Map_values (players g)) as [| q l IH]; cbn; constructor; auto.
  - rewrite map_map. reflexivity.
  - rewrite map_map. reflexivity.
  - rewrite map_map. reflexivity.
Qed.

(** X7: a new round wipes the one before it.  [startNewRound] gives the same
    state whether or not an earlier [startNewRound], an
    [roundEnterSuddenDeath] or an [endRound] came first: nothing of a round
    (its number, the sudden death flag, the pings, the squads' counters)
    survives into the next one. *)
Theorem startNewRound_absorbs (n m : Z) (g : GameState) (w : World) :
  startNewRound n (startNewRound m g) = startNewRound n g /\
  startNewRound n (roundEnterSuddenDeath g) = startNewRound n g /\
  startNewRound n (game (endRound w)) = startNewRound n (game w).
Proof.
  repeat split.
  - unfold startNewRound, Map_forEach. cbn. rewrite !map_map. reflexivity.
  - unfold startNewRound, roundEnterSuddenDeath, Map_forEach. cbn.
    rewrite !map_map. reflexivity.
  - unfold endRound. destruct (roundStarted (game w)); reflexivity.
Qed.

(** X8: lookups after a reset.  [getTeamById] on the state [startNewRound]
    leaves finds the round-reset of the squad it found before, and nothing
    where it found nothing; likewise a player looked up after
    [roundEnterSuddenDeath] is the player found before, pinged, and a squad
    looked up after it is the same squad. *)
Theorem getTeamById_after_reset (k n : Z) (g : GameState) :
  getTeamById k (startNewRound n g) = option_map roundReset (getTeamById k g) /\
  (getTeamById k g = None <-> getTeamById k (startNewRound n g) = None) /\
  Map_get k (players (roundEnterSuddenDeath g))
  = option_map (setPlayerPinged true) (Map_get k (players g)) /\
  getTeamById k (roundEnterSuddenDeath g) = getTeamById k g.
Proof.
  unfold getTeamById. cbn [teams players startNewRound roundEnterSuddenDeath].
  rewrite !Map_get_forEach.
  repeat split; destruct (Map_get k (teams g)); cbn; congruence.
Qed.

(** X9: [startNewRound] revives nobody, but makes the dead revivable.  A
    player who is dead when the round starts and whose squad is in the map
    is found dead (and not pinged) afterwards, and [canBeRevived] accepts
    him, whatever the squad's counters were at the end of the last round. *)
Theorem dead_player_revivable_after_startNewRound
    (n k : Z) (g : GameState) (p : Player) (s : Team) :
  Map_get k (players g) = Some p ->
  playerAlive p = false ->
  getTeamById (playerTeam p) g = Some s ->
  Map_get k (players (startNewRound n g)) = Some (setPlayerPinged false p) /\
  isPlayerAlive (setPlayerPinged false p) = false /\
  canBeRevived (setPlayerPinged false p) (teams (startNewRound n g)) = true.
Proof.
  intros Hp Hdead Hs. cbn [teams players startNewRound].
  rewrite Map_get_forEach, Hp. split; [reflexivity |]. split; [exact Hdead |].
  unfold canBeRevived. cbn [playerAlive playerTeam setPlayerPinged]. rewrite Hdead.
  unfold getTeamById in Hs. rewrite Map_get_forEach, Hs. reflexivity.
Qed.

Lemma dead_player_revivable_after_startNewRound_witness :
  let squad := runTeamOps (newTeam 2) [OpDeath; OpDeath; OpDeath; OpDeath] in
  let member := handlePlayerDeath (playerOn 8 2) in
  let g := setTeams [(2, squad)] (startGame fullLobby) in
  let g := {| gameStarted := gameStarted g; gameEnded := gameEnded g;
              gameRound := gameRound g; teams := teams g;
              players := [(8, member)];
              roundStarted := roundStarted g; roundEnded := roundEnded g;
              roundTimerSecs := roundTimerSecs g;
              roundInSuddenDeath := roundInSuddenDeath g |} in
  Map_get 8 (players (startNewRound 1 g)) = Some (setPlayerPinged false member) /\
  isPlayerAlive (setPlayerPinged false member) = false /\
  canBeRevived (setPlayerPinged false member) (teams (startNewRound 1 g)) = true.
Proof.
  cbv zeta.
  apply (dead_player_revivable_after_startNewRound 1 8 _
           (handlePlayerDeath (playerOn 8 2))
           (runTeamOps (newTeam 2) [OpDeath; OpDeath; OpDeath; OpDeath]));
    reflexivity.
Defined.

Lemma applyGameOp_keys w op :
  Map_keys (teams (game (applyGameOp w op))) = Map_keys (teams (game w)) /\
  Map_keys (players (game (applyGameOp w op))) = Map_keys (players (game w)).
Proof.
  destruct op; try (split; reflexivity).
  - cbn [applyGameOp onGame game startNewRound teams players].
    rewrite !Map_keys_forEach. split; reflexivity.
  - cbn [applyGameOp]. unfold endRound.
    destruct (roundStarted (game w)); split; reflexivity.
  - cbn [applyGameOp onGame game roundEnterSuddenDeath teams players].
    rewrite !Map_keys_forEach. split; reflexivity.
Qed.

Lemma applyGameOp_flags w op :
  flagsExclusive (game w) = true -> flagsExclusive (game (applyGameOp w op)) = true.
Proof.
  unfold flagsExclusive. destruct op; cbn; intros H.
  - apply andb_true_iff in H as [_ H]. rewrite H. reflexivity.
  - apply andb_true_iff in H as [_ H]. rewrite H. reflexivity.
  - apply andb_true_iff in H as [H _]. rewrite H. reflexivity.
  - unfold endRound. destruct (roundStarted (game w)); cbn;
      apply andb_true_iff in H as [H _]; rewrite H; reflexivity.
  - exact H.
Qed.

(** X10: the lifecycle flags are exclusive.  If [gameStarted] and
    [gameEnded] are not both true and [roundStarted] and [roundEnded] are not
    both true, no sequence of [startGame], [endGame], [startNewRound],
    [endRound] and [roundEnterSuddenDeath] makes either pair true together;
    in particular this holds of every state reached from the constructor. *)
Theorem lifecycle_flags_exclusive (w : World) (ops : list GameOp) :
  flagsExclusive (game w) = true ->
  flagsExclusive (game (runGameOps w ops)) = true.
Proof.
  revert w. induction ops as [| op ops IH]; intros w H; cbn.
  - exact H.
  - apply IH. apply applyGameOp_flags. exact H.
Qed.

Lemma lifecycle_flags_exclusive_witness :
  flagsExclusive
    (game (runGameOps initialWorld
             [GStartGame; GStartNewRound 0; GEnterSuddenDeath; GEndRound; GEndRound;
              GStartNewRound 1; GEndGame; GStartGame])) = true.
Proof.
  apply (lifecycle_flags_exclusive initialWorld
           [GStartGame; GStartNewRound 0; GEnterSuddenDeath; GEndRound; GEndRound;
            GStartNewRound 1; GEndGame; GStartGame]).
  reflexivity.
Defined.

(** X11: no method of [GameState] adds or removes a squad or a player.
    After any sequence of the five methods both maps have the keys they
    had, in the same order; on the constructed state both stay empty. *)
Theorem game_methods_keep_keys (w : World) (ops : list GameOp) :
  Map_keys (teams (game (runGameOps w ops))) = Map_keys (teams (game w)) /\
  Map_keys (players (game (runGameOps w ops))) = Map_keys (players (game w)) /\
  teams (game (runGameOps initialWorld ops)) = [] /\
  players (game (runGameOps initialWorld ops)) = [].
Proof.
  assert (H : forall w0,
            Map_keys (teams (game (runGameOps w0 ops))) = Map_keys (teams (game w0)) /\
            Map_keys (players (game (runGameOps w0 ops))) = Map_keys (players (game w0))).
  { induction ops as [| op ops IH]; intros w0; cbn; [split; reflexivity |].
    destruct (IH (applyGameOp w0 op)) as [H1 H2].
    destruct (applyGameOp_keys w0 op) as [H3 H4].
    unfold runGameOps in H1, H2. rewrite H1, H2. auto. }
  destruct (H w) as [H1 H2]. destruct (H initialWorld) as [H3 H4].
  repeat split; try assumption.
  - cbn in H3. unfold Map_keys in H3. apply map_eq_nil in H3. exact H3.
  - cbn in H4. unfold Map_keys in H4. apply map_eq_nil in H4. exact H4.
Qed.

Lemma applyGameOp_sudden w op :
  isStartNewRound op = false ->
  roundInSuddenDeath (game w) = true ->
  forallb playerPinged (getAllPlayers (game w)) = true ->
  roundInSuddenDeath (game (applyGameOp w op)) = true /\
  forallb playerPinged (getAllPlayers (game (applyGameOp w op))) = true.
Proof.
  intros Hop Hsd Hping. destruct op; cbn in *; try discriminate; try (split; assumption).
  - unfold endRound. destruct (roundStarted (game w)); cbn; split; assumption.
  - split; [reflexivity |]. apply forEach_pinged.
Qed.

(** X12: sudden death lasts until the next round.  Once
    [roundEnterSuddenDeath] has run, the flag stays true and every player
    stays pinged through any sequence of [startGame], [endGame], [endRound]
    and further [roundEnterSuddenDeath]; only [startNewRound] clears them. *)
Theorem sudden_death_until_next_round (w : World) (ops : list GameOp) :
  forallb (fun op => negb (isStartNewRound op)) ops = true ->
  let w' := runGameOps (applyGameOp w GEnterSuddenDeath) ops in
  roundInSuddenDeath (game w') = true /\
  forallb playerPinged (getAllPlayers (game w')) = true.
Proof.
  intros Hops. cbv zeta.
  assert (H0 : roundInSuddenDeath (game (applyGameOp w GEnterSuddenDeath)) = true /\
               forallb playerPinged
                 (getAllPlayers (game (applyGameOp w GEnterSuddenDeath))) = true).
  { split; [reflexivity | apply forEach_pinged]. }
  revert H0. generalize (applyGameOp w GEnterSuddenDeath). clear w.
  induction ops as [| op ops IH]; intros w H0; cbn in *.
  - exact H0.
  - apply andb_true_iff in Hops as [Hop Hops]. apply negb_true_iff in Hop.
    destruct H0 as [Hsd Hping]. apply IH; [exact Hops |].
    apply applyGameOp_sudden; assumption.
Qed.

Lemma sudden_death_until_next_round_witness :
  let w' := runGameOps
              (applyGameOp {| game := startNewRound 0 (startGame fullLobby); console := [] |}
                 GEnterSuddenDeath)
              [GEndRound; GEndGame; GEnterSuddenDeath; GStartGame] in
  roundInSuddenDeath (game w') = true /\
  forallb playerPinged (getAllPlayers (game w')) = true.
Proof.
  apply (sudden_death_until_next_round
           {| game := startNewRound 0 (startGame fullLobby); console := [] |}
           [GEndRound; GEndGame; GEnterSuddenDeath; GStartGame]).
  reflexivity.
Defined.

(** X13: [endRound] never fails.  It always leaves [roundStarted] false and
    [roundEnded] true and touches nothing else of the game; it writes the
    debug line exactly when no round was started, so ending the round that
    [startNewRound] began writes nothing and ending a round twice writes one
    line, at the second call. *)
Theorem endRound_diagnostic (n : Z) (w : World) :
  game (endRound w)
  = {| gameStarted := gameStarted (game w);
       gameEnded := gameEnded (game w);
       gameRound := gameRound (game w);
       teams := teams (game w);
       players := players (game w);
       roundStarted := false;
       roundEnded := true;
       roundTimerSecs := roundTimerSecs (game w);
       roundInSuddenDeath := roundInSuddenDeath (game w) |} /\
  gameStarted (game (endRound w)) = gameStarted (game w) /\
  gameEnded (game (endRound w)) = gameEnded (game w) /\
  roundTimerSecs (game (endRound w)) = roundTimerSecs (game w) /\
  roundStarted (game (endRound w)) = false /\
  roundEnded (game (endRound w)) = true /\
  teams (game (endRound w)) = teams (game w) /\
  players (game (endRound w)) = players (game w) /\
  roundInSuddenDeath (game (endRound w)) = roundInSuddenDeath (game w) /\
  gameRound (game (endRound w)) = gameRound (game w) /\
  console (endRound w)
  = (if roundStarted (game w) then console w else console w ++ [EndRoundNotStarted]) /\
  console (endRound (onGame (startNewRound n) w)) = console w /\
  endRound (endRound w) = console_log EndRoundNotStarted (endRound w).
Proof.
  unfold endRound. destruct (roundStarted (game w)); cbn; repeat split.
Qed.

(** ** The round timer, whatever the host does *)

Lemma tickLoop_exit wait n s : tickStep wait n (tickLoop wait n s) = None.
Proof.
  funelim (tickLoop wait n s).
  - assumption.
  - assumption.
Qed.

Lemma tickLoop_steps wait n s :
  exists k, tickSteps wait n k s = Some (tickLoop wait n s).
Proof.
  funelim (tickLoop wait n s).
  - destruct H as [k Hk]. exists (S k). cbn. rewrite e. exact Hk.
  - exists O. reflexivity.
Qed.

Lemma tickStep_inv wait n s s' :
  tickStep wait n s = Some s' ->
  snd s < ROUND_TIMER_SECS + SUDDEN_DEATH_TIMER_SECS /\
  snd s' = snd s + 1 /\
  console (fst s')
  = console (fst s)
    ++ (if snd s =? ROUND_TIMER_SECS then [EnteringSuddenDeath (n + 1)] else []).
Proof.
  unfold tickStep, tickGuard, tickBody.
  destruct (Nat.ltb 1 _); cbn [andb]; [| discriminate].
  destruct (Z.ltb_spec (snd s) (ROUND_TIMER_SECS + SUDDEN_DEATH_TIMER_SECS)); [| discriminate].
  intros [= <-]. cbn [fst snd]. split; [assumption |]. split; [reflexivity |].
  destruct (snd s =? ROUND_TIMER_SECS); cbn; [reflexivity |].
  rewrite app_nil_r. reflexivity.
Qed.

Lemma tickSteps_inv wait n k : forall s s',
  tickSteps wait n k s = Some s' ->
  snd s' = snd s + Z.of_nat k /\
  (k <> O -> snd s' <= ROUND_TIMER_SECS + SUDDEN_DEATH_TIMER_SECS) /\
  console (fst s')
  = console (fst s)
    ++ (if (snd s <=? ROUND_TIMER_SECS) && (ROUND_TIMER_SECS <? snd s')
        then [EnteringSuddenDeath (n + 1)] else []).
Proof.
  induction k as [| k IH]; intros s s' Hk; cbn [tickSteps] in Hk.
  - injection Hk as <-. split; [lia |]. split; [congruence |].
    destruct (Z.leb_spec (snd s) ROUND_TIMER_SECS), (Z.ltb_spec ROUND_TIMER_SECS (snd s));
      cbn; try lia; rewrite app_nil_r; reflexivity.
  - destruct (tickStep wait n s) as [s1 |] eqn:E1; [| discriminate].
    destruct (tickStep_inv _ _ _ _ E1) as (Hlt & Hs1 & Hc1).
    destruct (IH _ _ Hk) as (Hs' & Hmax & Hc').
    split; [lia |]. split.
    + intros _. destruct k; [cbn in Hs'; lia | apply Hmax; congruence].
    + rewrite Hc', Hc1, <- app_assoc. f_equal.
      destruct (Z.eqb_spec (snd s) ROUND_TIMER_SECS),
               (Z.leb_spec (snd s1) ROUND_TIMER_SECS),
               (Z.leb_spec (snd s) ROUND_TIMER_SECS),
               (Z.ltb_spec ROUND_TIMER_SECS (snd s')); cbn; try reflexivity; lia.
Qed.

(** X14: the inner loop always ends, within 720 turns.  Whatever the host
    does during the waits, the loop started at [roundTimerSecs = 0] stops
    after [k <= 720] turns with [roundTimerSecs = k], at a state where its
    guard fails: at most one squad is left alive, or the counter is 720. *)
Theorem tickLoop_exit_condition (wait : HostWait) (n : Z) (w : World) :
  let r := tickLoop wait n (w, 0) in
  (exists k, (k <= 720)%nat /\ tickSteps wait n k (w, 0) = Some r /\ snd r = Z.of_nat k) /\
  tickStep wait n r = None /\
  ((List.length (getAliveTeams (game (fst r))) <= 1)%nat \/ snd r = 720).
Proof.
  cbv zeta. pose proof (tickLoop_exit wait n (w, 0)) as Hexit.
  destruct (tickLoop_steps wait n (w, 0)) as [k Hk].
  destruct (tickSteps_inv _ _ _ _ _ Hk) as (Hs & Hmax & _). cbn [snd] in Hs.
  unfold ROUND_TIMER_SECS, SUDDEN_DEATH_TIMER_SECS in Hmax.
  assert (Hk720 : (k <= 720)%nat).
  { destruct k; [lia |]. assert (snd (tickLoop wait n (w, 0)) <= 60 * 10 + 60 * 2)
      by (apply Hmax; congruence). lia. }
  split; [exists k; repeat split; [exact Hk720 | exact Hk | lia] |].
  split; [exact Hexit |].
  unfold tickStep, tickGuard in Hexit.
  destruct (Nat.ltb_spec 1 (List.length (getAliveTeams (game (fst (tickLoop wait n (w, 0)))))));
    cbn [andb] in Hexit; [| left; lia].
  destruct (Z.ltb_spec (snd (tickLoop wait n (w, 0)))
              (ROUND_TIMER_SECS + SUDDEN_DEATH_TIMER_SECS)); [discriminate |].
  right. unfold ROUND_TIMER_SECS, SUDDEN_DEATH_TIMER_SECS in *. lia.
Qed.

(** X15: sudden death is announced at most once a round, and only by a
    loop that ran past [roundTimerSecs = 600].  Whatever the host does, the
    console after the inner loop is the console before it, followed by the
    one line "entering sudden death" when the loop stopped with the counter
    above 600, and by nothing when it stopped earlier. *)
Theorem tickLoop_console (wait : HostWait) (n : Z) (w : World) :
  let r := tickLoop wait n (w, 0) in
  console (fst r)
  = console w ++ (if 600 <? snd r then [EnteringSuddenDeath (n + 1)] else []).
Proof.
  cbv zeta. destruct (tickLoop_steps wait n (w, 0)) as [k Hk].
  destruct (tickSteps_inv _ _ _ _ _ Hk) as (_ & _ & Hc). cbn [fst snd] in Hc.
  exact Hc.
Qed.

(** ** Lobbies with fewer than two squads *)

Lemma tickLoop_immediate wait n w t :
  (List.length (getAliveTeams (game w)) <= 1)%nat ->
  tickLoop wait n (w, t) = (w, t).
Proof.
  intros H. rewrite tickLoop_turn. unfold tickStep, tickGuard. cbn [fst snd].
  destruct (Nat.ltb_spec 1 (List.length (getAliveTeams (game w)))); [lia | reflexivity].
Qed.

Lemma playRound_without_squads wait n w :
  teams (game w) = [] ->
  teams (game (playRound wait n w)) = [] /\
  console (playRound wait n w)
  = console w ++ [StartingRound (n + 1); RoundEndedAlive (n + 1) []] /\
  roundInSuddenDeath (game (playRound wait n w)) = false.
Proof.
  intros H. destruct w as [g c]. destruct g. cbn in H. subst.
  unfold playRound. rewrite tickLoop_immediate by (cbn; lia).
  cbn. rewrite <- app_assoc. repeat split.
Qed.

Lemma gameLoop_without_squads wait k : forall n w,
  teams (game w) = [] ->
  n = MAX_NUMBER_OF_ROUNDS - Z.of_nat k ->
  exists w',
    gameLoop wait (w, n) = (w', MAX_NUMBER_OF_ROUNDS) /\
    teams (game w') = [] /\
    console w' = console w ++ emptyRounds n k /\
    (k <> O -> roundInSuddenDeath (game w') = false).
Proof.
  induction k as [| k IH]; intros n w H Hn; rewrite gameLoop_turn;
    unfold gameStep, gameGuard; cbn [fst snd]; rewrite H; cbn [Map_values map forallb andb].
  - destruct (Z.ltb_spec n MAX_NUMBER_OF_ROUNDS); [lia |].
    exists w. replace n with MAX_NUMBER_OF_ROUNDS by lia.
    cbn. rewrite app_nil_r. repeat split; congruence.
  - destruct (Z.ltb_spec n MAX_NUMBER_OF_ROUNDS); [| lia].
    destruct (playRound_without_squads wait n w H) as (Ht & Hc & Hsd).
    destruct (IH (n + 1) (playRound wait n w) Ht ltac:(lia)) as (w' & Hloop & Ht' & Hc' & Hsd').
    exists w'. split; [exact Hloop |]. split; [exact Ht' |]. split.
    + rewrite Hc', Hc, <- app_assoc. reflexivity.
    + intros _. destruct k as [| k'].
      * rewrite gameLoop_turn in Hloop. unfold gameStep, gameGuard in Hloop.
        cbn [fst snd] in Hloop.
        destruct (Z.ltb_spec (n + 1) MAX_NUMBER_OF_ROUNDS); [lia |].
        rewrite andb_false_r in Hloop. injection Hloop as <-. exact Hsd.
      * apply Hsd'. congruence.
Qed.

(** X16: the script on a game without squads.  Whatever the host does and
    whoever the players are, the seven rounds start and end at once without
    a single wait, each logged as ended with no squad alive; the game is
    logged as lost, sudden death is never entered and the map is still
    empty at the end. *)
Theorem OnGameModeStarted_without_squads (wait : HostWait) (w : World) :
  teams (game w) = [] ->
  let final := OnGameModeStarted wait w in
  console final
  = console w
    ++ [GameStartedLine;
        StartingRound 1; RoundEndedAlive 1 [];
        StartingRound 2; RoundEndedAlive 2 [];
        StartingRound 3; RoundEndedAlive 3 [];
        StartingRound 4; RoundEndedAlive 4 [];
        StartingRound 5; RoundEndedAlive 5 [];
        StartingRound 6; RoundEndedAlive 6 [];
        StartingRound 7; RoundEndedAlive 7 [];
        GameLost 7] /\
  snd (gameLoop wait (console_log GameStartedLine (onGame startGame w), 0)) = 7 /\
  teams (game final) = [] /\
  roundInSuddenDeath (game final) = false /\
  gameEnded (game final) = true.
Proof.
  intros H. cbv zeta.
  destruct (gameLoop_without_squads wait 7 0
              (console_log GameStartedLine (onGame startGame w)) H eq_refl)
    as (w' & Hloop & Ht & Hc & Hsd).
  unfold OnGameModeStarted. rewrite Hloop. cbn [snd].
  unfold winners. rewrite Ht. cbn [Map_values map filter].
  cbn [game console onGame console_log endGame teams roundInSuddenDeath gameEnded].
  rewrite Hc, Ht, Hsd by discriminate.
  cbn. rewrite <- !app_assoc. repeat split.
Qed.

Lemma OnGameModeStarted_without_squads_witness :
  let final := OnGameModeStarted (lastStanding deltaAlfaDelta) initialWorld in
  console final
  = console initialWorld
    ++ [GameStartedLine;
        StartingRound 1; RoundEndedAlive 1 [];
        StartingRound 2; RoundEndedAlive 2 [];
        StartingRound 3; RoundEndedAlive 3 [];
        StartingRound 4; RoundEndedAlive 4 [];
        StartingRound 5; RoundEndedAlive 5 [];
        StartingRound 6; RoundEndedAlive 6 [];
        StartingRound 7; RoundEndedAlive 7 [];
        GameLost 7] /\
  snd (gameLoop (lastStanding deltaAlfaDelta)
         (console_log GameStartedLine (onGame startGame initialWorld), 0)) = 7 /\
  teams (game final) = [] /\
  roundInSuddenDeath (game final) = false /\
  gameEnded (game final) = true.
Proof.
  apply (OnGameModeStarted_without_squads (lastStanding deltaAlfaDelta) initialWorld).
  reflexivity.
Defined.

Lemma playRound_single_squad wait n w k s :
  teams (game w) = [(k, s)] ->
  teams (game (playRound wait n w)) = [(k, addRoundWin (roundReset s))] /\
  console (playRound wait n w)
  = console w ++ [StartingRound (n + 1); RoundWonBy (n + 1) (teamName s)] /\
  roundInSuddenDeath (game (playRound wait n w)) = false.
Proof.
  intros H. destruct w as [g c]. destruct g. cbn in H. subst.
  unfold playRound. rewrite tickLoop_immediate by (cbn; lia).
  cbn. rewrite <- app_assoc. repeat split.
Qed.

Lemma gameStep_single_squad wait w n k s :
  teams (game w) = [(k, s)] ->
  gameStep wait (w, n)
  = if (teamScore s <? ROUNDS_TO_WIN) && (n <? MAX_NUMBER_OF_ROUNDS)
    then Some (playRound wait n w, n + 1)
    else None.
Proof.
  intros H. unfold gameStep, gameGuard. cbn [fst snd]. rewrite H.
  cbn [Map_values map snd forallb]. unfold hasWonGame.
  rewrite andb_true_r, Z.leb_antisym, negb_involutive. reflexivity.
Qed.

Lemma gameLoop_single_squad wait w0 k s :
  teams (game w0) = [(k, s)] ->
  teamScore s = 0 ->
  exists w2,
    gameLoop wait (w0, 0) = (w2, 2) /\
    teams (game w2) = [(k, addRoundWin (addRoundWin (roundReset s)))] /\
    console w2
    = console w0
      ++ [StartingRound 1; RoundWonBy 1 (teamName s);
          StartingRound 2; RoundWonBy 2 (teamName s)] /\
    roundInSuddenDeath (game w2) = false.
Proof.
  intros H0 Hs.
  destruct (playRound_single_squad wait 0 w0 k s H0) as (H1 & Hc1 & _).
  destruct (playRound_single_squad wait (0 + 1) (playRound wait 0 w0) k _ H1)
    as (H2 & Hc2 & Hsd2).
  exists (playRound wait (0 + 1) (playRound wait 0 w0)).
  split; [| split; [exact H2 | split; [| exact Hsd2]]].
  - rewrite gameLoop_turn, (gameStep_single_squad wait w0 0 k s H0), Hs.
    change ((0 <? ROUNDS_TO_WIN) && (0 <? MAX_NUMBER_OF_ROUNDS)) with true. cbv iota.
    rewrite gameLoop_turn, (gameStep_single_squad wait _ (0 + 1) k _ H1).
    cbn [teamScore addRoundWin roundReset]. rewrite Hs.
    change ((0 + 1 <? ROUNDS_TO_WIN) && (0 + 1 <? MAX_NUMBER_OF_ROUNDS)) with true. cbv iota.
    rewrite gameLoop_turn, (gameStep_single_squad wait _ _ k _ H2).
    cbn [teamScore addRoundWin roundReset]. rewrite Hs. reflexivity.
  - rewrite Hc2, Hc1, <- app_assoc. reflexivity.
Qed.

(** X17: the script on a game with a single squad that has no win yet.
    Whatever the host does, the squad is the only one alive as soon as a
    round starts: rounds 0 and 1 end at once, each won by it, and the game
    is logged as won by it after two rounds (the message counts three); its
    entry ends with score 2, four revives, four alive, not eliminated. *)
Theorem OnGameModeStarted_single_squad (wait : HostWait) (w : World) (k : Z) (s : Team) :
  teams (game w) = [(k, s)] ->
  teamScore s = 0 ->
  let final := OnGameModeStarted wait w in
  console final
  = console w
    ++ [GameStartedLine;
        StartingRound 1; RoundWonBy 1 (teamName s);
        StartingRound 2; RoundWonBy 2 (teamName s);
        GameWonBy (teamName s) 3] /\
  snd (gameLoop wait (console_log GameStartedLine (onGame startGame w), 0)) = 2 /\
  teams (game final) = [(k, addRoundWin (addRoundWin (roundReset s)))] /\
  roundInSuddenDeath (game final) = false /\
  gameEnded (game final) = true.
Proof.
  intros H Hs. cbv zeta.
  destruct (gameLoop_single_squad wait
              (console_log GameStartedLine (onGame startGame w)) k s H Hs)
    as (w2 & Hloop & Ht & Hc & Hsd).
  assert (Hwon : hasWonGame (addRoundWin (addRoundWin (roundReset s))) = true).
  { unfold hasWonGame. cbn [teamScore addRoundWin roundReset]. rewrite Hs. reflexivity. }
  unfold OnGameModeStarted. rewrite Hloop. cbn [snd].
  unfold winners. rewrite Ht. cbn [Map_values map snd filter]. rewrite Hwon.
  cbn [game console onGame console_log endGame teams roundInSuddenDeath gameEnded].
  rewrite Hc, Ht, Hsd.
  cbn [console console_log onGame game teamName addRoundWin roundReset].
  rewrite <- !app_assoc. cbn [app]. repeat split.
Qed.

Lemma OnGameModeStarted_single_squad_witness :
  let w := {| game := setTeams [(3, newTeam 3)] fullLobby; console := [] |} in
  let final := OnGameModeStarted (lastStanding deltaAlfaDelta) w in
  console final
  = console w
    ++ [GameStartedLine;
        StartingRound 1; RoundWonBy 1 (teamName (newTeam 3));
        StartingRound 2; RoundWonBy 2 (teamName (newTeam 3));
        GameWonBy (teamName (newTeam 3)) 3] /\
  snd (gameLoop (lastStanding deltaAlfaDelta)
         (console_log GameStartedLine (onGame startGame w), 0)) = 2 /\
  teams (game final) = [(3, addRoundWin (addRoundWin (roundReset (newTeam 3))))] /\
  roundInSuddenDeath (game final) = false /\
  gameEnded (game final) = true.
Proof.
  apply (OnGameModeStarted_single_squad (lastStanding deltaAlfaDelta)
           {| game := setTeams [(3, newTeam 3)] fullLobby; console := [] |}
           3 (newTeam 3));
    reflexivity.
Defined.

(** ** Points and rounds over a whole game *)

Lemma countLines_app p a b : countLines p (a ++ b) = countLines p a + countLines p b.
Proof.
  unfold countLines. rewrite filter_app, length_app. lia.
Qed.

Lemma sumZ_app a b : sumZ (a ++ b) = sumZ a + sumZ b.
Proof.
  unfold sumZ. induction a as [| x a IH]; cbn; [reflexivity | rewrite IH; lia].
Qed.

Lemma resolveRound_tally n w :
  roundsStarted (resolveRound n w) = roundsStarted w /\
  roundsEnded (resolveRound n w) = roundsEnded w + 1 /\
  pointsHeld (resolveRound n w) - roundsWon (resolveRound n w)
  = pointsHeld w - roundsWon w.
Proof.
  unfold roundsStarted, roundsEnded, roundsWon, pointsHeld.
  destruct (Nat.eq_dec (List.length (getAliveTeams (game w))) 1) as [E | E].
  - destruct (resolveRound_one n w E) as (m1 & k & s & m2 & _ & Hm & Hg & _ & Hc).
    rewrite Hc, Hg, !countLines_app. unfold scores, Map_values.
    cbn [teams setTeams]. rewrite Hm, !map_app, !sumZ_app. cbn. lia.
  - rewrite (resolveRound_other n w E). cbn [console console_log game].
    rewrite !countLines_app. cbn. lia.
Qed.

Lemma tickLoop_tally wait n w :
  roundsStarted (fst (tickLoop wait n (w, 0))) = roundsStarted w /\
  roundsEnded (fst (tickLoop wait n (w, 0))) = roundsEnded w /\
  roundsWon (fst (tickLoop wait n (w, 0))) = roundsWon w.
Proof.
  destruct (tickLoop_steps wait n (w, 0)) as [k Hk].
  destruct (tickSteps_inv _ _ _ _ _ Hk) as (_ & _ & Hc). cbn [fst snd] in Hc.
  unfold roundsStarted, roundsEnded, roundsWon. rewrite Hc, !countLines_app.
  destruct ((0 <=? ROUND_TIMER_SECS) && (ROUND_TIMER_SECS <? snd (tickLoop wait n (w, 0))));
    cbn; lia.
Qed.

Lemma endRound_tally w :
  roundsStarted (endRound w) = roundsStarted w /\
  roundsEnded (endRound w) = roundsEnded w /\
  roundsWon (endRound w) = roundsWon w /\
  pointsHeld (endRound w) = pointsHeld w.
Proof.
  unfold roundsStarted, roundsEnded, roundsWon, pointsHeld, endRound.
  destruct (roundStarted (game w)); cbn [console game onGame console_log];
    rewrite ?countLines_app; cbn; repeat split; lia.
Qed.

Lemma winners_nil_scores g :
  winners g = [] <-> Forall (fun x => x < ROUNDS_TO_WIN) (scores g).
Proof.
  unfold winners, scores. induction (Map_values (teams g)) as [| s l IH]; cbn.
  - split; [constructor | reflexivity].
  - unfold hasWonGame at 1.
    destruct (Z.leb_spec ROUNDS_TO_WIN (teamScore s)); split; intros Hw.
    + discriminate.
    + inversion Hw; subst. lia.
    + constructor; [assumption | apply IH; assumption].
    + inversion Hw; subst. apply IH. assumption.
Qed.

Lemma bumped_le l l' :
  bumped l l' -> Forall (fun x => x < ROUNDS_TO_WIN) l ->
  Forall (fun x => x <= ROUNDS_TO_WIN) l' /\ List.length l' = List.length l.
Proof.
  intros [-> | (l1 & x & l2 & -> & ->)] H.
  - split; [| reflexivity]. eapply Forall_impl; [| exact H]. cbn. intros; lia.
  - apply Forall_app in H as [H1 H2]. inversion H2; subst. split.
    + apply Forall_app. split; [eapply Forall_impl; [| exact H1]; cbn; intros; lia |].
      constructor; [lia |]. eapply Forall_impl; [| eassumption]. cbn. intros; lia.
    + rewrite !length_app. reflexivity.
Qed.

Lemma sumZ_bound l :
  Forall (fun x => x < ROUNDS_TO_WIN) l -> sumZ l <= Z.of_nat (List.length l).
Proof.
  unfold ROUNDS_TO_WIN. induction 1 as [| x l Hx _ IH]; cbn [sumZ fold_right List.length].
  - lia.
  - fold (sumZ l). lia.
Qed.

Lemma sumZ_zero l : Forall (fun x => x = 0) l -> sumZ l = 0.
Proof.
  induction 1 as [| x l Hx _ IH]; cbn [sumZ fold_right]; [reflexivity |].
  fold (sumZ l). lia.
Qed.

Lemma console_log_tally line w :
  isStartingRound line = false -> isRoundWonBy line = false ->
  isRoundEndedAlive line = false ->
  roundsStarted (console_log line w) = roundsStarted w /\
  roundsEnded (console_log line w) = roundsEnded w /\
  roundsWon (console_log line w) = roundsWon w /\
  countLines isRoundEndedAlive (console (console_log line w))
  = countLines isRoundEndedAlive (console w) /\
  pointsHeld (console_log line w) = pointsHeld w.
Proof.
  intros H1 H2 H3. unfold roundsStarted, roundsEnded, roundsWon, pointsHeld.
  cbn [console console_log game]. rewrite !countLines_app. unfold countLines.
  cbn [filter]. rewrite H1, H2, H3. cbn. repeat split; lia.
Qed.

Lemma onGame_tally f w :
  roundsStarted (onGame f w) = roundsStarted w /\
  roundsEnded (onGame f w) = roundsEnded w /\
  roundsWon (onGame f w) = roundsWon w /\
  countLines isRoundEndedAlive (console (onGame f w))
  = countLines isRoundEndedAlive (console w).
Proof. repeat split. Qed.

Lemma script_ends_tally line w wl :
  isStartingRound line = false -> isRoundWonBy line = false ->
  isRoundEndedAlive line = false ->
  let started := console_log GameStartedLine (onGame startGame w) in
  let final := onGame endGame (console_log line wl) in
  (roundsStarted started = roundsStarted w /\ roundsEnded started = roundsEnded w /\
   roundsWon started = roundsWon w /\ pointsHeld started = pointsHeld w) /\
  (roundsStarted final = roundsStarted wl /\ roundsEnded final = roundsEnded wl /\
   roundsWon final = roundsWon wl /\ pointsHeld final = pointsHeld wl /\
   countLines isRoundEndedAlive (console final)
   = countLines isRoundEndedAlive (console wl)).
Proof.
  intros H1 H2 H3. cbv zeta.
  destruct (console_log_tally GameStartedLine (onGame startGame w) eq_refl eq_refl eq_refl)
    as (A1 & A2 & A3 & _ & A5).
  destruct (console_log_tally line wl H1 H2 H3) as (B1 & B2 & B3 & B4 & B5).
  destruct (onGame_tally startGame w) as (C1 & C2 & C3 & _).
  destruct (onGame_tally endGame (console_log line wl)) as (D1 & D2 & D3 & D4).
  assert (E1 : pointsHeld (onGame startGame w) = pointsHeld w) by reflexivity.
  assert (E2 : pointsHeld (onGame endGame (console_log line wl))
               = pointsHeld (console_log line wl)) by reflexivity.
  repeat split; congruence.
Qed.

Section Tally.

Variable wait : HostWait.
Hypothesis wait_scores : forall n t g, scores (wait n t g) = scores g.

Lemma playRound_tally n w :
  roundsStarted (playRound wait n w) = roundsStarted w + 1 /\
  roundsEnded (playRound wait n w) = roundsEnded w + 1 /\
  pointsHeld (playRound wait n w) - roundsWon (playRound wait n w)
  = pointsHeld w - roundsWon w.
Proof.
  unfold playRound.
  set (w2 := onGame (startNewRound n) (console_log (StartingRound (n + 1)) w)).
  assert (H2 : roundsStarted w2 = roundsStarted w + 1 /\ roundsEnded w2 = roundsEnded w /\
               roundsWon w2 = roundsWon w /\ pointsHeld w2 = pointsHeld w).
  { unfold roundsStarted, roundsEnded, roundsWon, pointsHeld, w2.
    cbn [console game onGame console_log]. rewrite !countLines_app, scores_startNewRound.
    cbn. repeat split; lia. }
  destruct H2 as (Ha & Hb & Hc & Hd).
  destruct (tickLoop_tally wait n w2) as (Ta & Tb & Tc).
  assert (Td : pointsHeld (fst (tickLoop wait n (w2, 0))) = pointsHeld w2).
  { unfold pointsHeld. rewrite (tickLoop_scores wait wait_scores). reflexivity. }
  destruct (resolveRound_tally n (fst (tickLoop wait n (w2, 0)))) as (Ra & Rb & Rc).
  destruct (endRound_tally (resolveRound n (fst (tickLoop wait n (w2, 0)))))
    as (Ea & Eb & Ec & Ed).
  repeat split; lia.
Qed.

Lemma gameStep_tally s s' :
  gameStep wait s = Some s' ->
  snd s' = snd s + 1 /\
  roundsStarted (fst s') = roundsStarted (fst s) + 1 /\
  roundsEnded (fst s') = roundsEnded (fst s) + 1 /\
  pointsHeld (fst s') - roundsWon (fst s') = pointsHeld (fst s) - roundsWon (fst s) /\
  Forall (fun x => x <= ROUNDS_TO_WIN) (scores (game (fst s'))) /\
  List.length (scores (game (fst s'))) = List.length (scores (game (fst s))).
Proof.
  unfold gameStep, gameGuard.
  destruct (forallb _ _) eqn:Hall; cbn [andb]; [| discriminate].
  destruct (snd s <? MAX_NUMBER_OF_ROUNDS); [| discriminate].
  intros [= <-]. cbn [fst snd].
  destruct (playRound_tally (snd s) (fst s)) as (Ha & Hb & Hc).
  apply winners_nil_iff, winners_nil_scores in Hall.
  destruct (bumped_le _ _ (playRound_bumped wait wait_scores (snd s) (fst s)) Hall)
    as (Hle & Hlen).
  repeat split; assumption.
Qed.

Lemma gameLoop_tally s :
  let r := gameLoop wait s in
  roundsStarted (fst r) - snd r = roundsStarted (fst s) - snd s /\
  roundsEnded (fst r) - snd r = roundsEnded (fst s) - snd s /\
  pointsHeld (fst r) - roundsWon (fst r) = pointsHeld (fst s) - roundsWon (fst s) /\
  List.length (scores (game (fst r))) = List.length (scores (game (fst s))).
Proof.
  cbv zeta. funelim (gameLoop wait s).
  - destruct (gameStep_tally _ _ e) as (Hn & Ha & Hb & Hc & _ & Hlen).
    match goal with IH : _ /\ _ |- _ => destruct IH as (Ia & Ib & Ic & Ie) end.
    repeat split; lia.
  - repeat split; lia.
Qed.

Lemma gameLoop_scores_le s :
  Forall (fun x => x <= ROUNDS_TO_WIN) (scores (game (fst s))) ->
  Forall (fun x => x <= ROUNDS_TO_WIN) (scores (game (fst (gameLoop wait s)))).
Proof.
  funelim (gameLoop wait s); intros Hle.
  - destruct (gameStep_tally _ _ e) as (_ & _ & _ & _ & Hle' & _).
    match goal with IH : _ -> Forall _ _ |- _ => exact (IH Hle') end.
  - exact Hle.
Qed.

Lemma OnGameModeStarted_shape w :
  exists line,
    isStartingRound line = false /\ isRoundWonBy line = false /\
    isRoundEndedAlive line = false /\
    OnGameModeStarted wait w
    = onGame endGame
        (console_log line
           (fst (gameLoop wait (console_log GameStartedLine (onGame startGame w), 0)))).
Proof.
  unfold OnGameModeStarted.
  destruct (gameLoop wait (console_log GameStartedLine (onGame startGame w), 0)) as [wl n].
  cbn [fst]. destruct (filter hasWonGame (Map_values (teams (game wl)))) as [| s [| s' l]].
  - exists (GameLost MAX_NUMBER_OF_ROUNDS). repeat split.
  - exists (GameWonBy (teamName s) (n + 1)). repeat split.
  - exists (GameLost MAX_NUMBER_OF_ROUNDS). repeat split.
Qed.

Lemma played_bounds w :
  0 <= snd (gameLoop wait (w, 0)) <= MAX_NUMBER_OF_ROUNDS.
Proof.
  destruct (gameLoop_steps wait (w, 0)) as [k Hk].
  destruct (gameSteps_rounds wait k _ _ Hk) as [Hn Hmax]. cbn [snd] in Hn.
  destruct k; [unfold MAX_NUMBER_OF_ROUNDS; cbn in Hn; lia |].
  split; [lia | apply Hmax; congruence].
Qed.

(** X18: no squad ever holds more than two points.  If no squad has two wins
    when the script starts and the host does not change scores, then at the
    end every score is at most 2, a squad that has won the game has exactly
    2, and there are as many squads as at the start. *)
Theorem scores_never_exceed_two (w : World) :
  winners (game w) = [] ->
  let final := OnGameModeStarted wait w in
  Forall (fun x => x <= 2) (scores (game final)) /\
  (forall s, In s (winners (game final)) -> teamScore s = 2) /\
  List.length (teams (game final)) = List.length (teams (game w)).
Proof.
  intros Hinit. cbv zeta.
  destruct (OnGameModeStarted_shape w) as (line & _ & _ & _ & ->).
  set (started := console_log GameStartedLine (onGame startGame w)).
  assert (Hle : Forall (fun x => x <= ROUNDS_TO_WIN)
                  (scores (game (fst (gameLoop wait (started, 0)))))).
  { apply gameLoop_scores_le. apply winners_nil_scores in Hinit.
    eapply Forall_impl; [| exact Hinit]. cbn. intros; lia. }
  destruct (gameLoop_tally (started, 0)) as (_ & _ & _ & Hlen).
  cbn [game onGame console_log endGame teams].
  change (scores (endGame (game (fst (gameLoop wait (started, 0))))))
    with (scores (game (fst (gameLoop wait (started, 0))))).
  unfold winners. cbn [teams endGame].
  split; [exact Hle |]. split.
  - intros s Hs. apply filter_In in Hs as [Hin Hwon].
    unfold hasWonGame in Hwon. apply Z.leb_le in Hwon.
    rewrite Forall_forall in Hle.
    assert (teamScore s <= ROUNDS_TO_WIN) by (apply Hle; unfold scores; apply in_map; exact Hin).
    unfold ROUNDS_TO_WIN in *. lia.
  - unfold scores, Map_values in Hlen. rewrite !length_map in Hlen. exact Hlen.
Qed.

(** X19: the console and the scores tell the same story.  If the host does
    not change scores, the script logs one "Starting round" line per round
    played and ends each round with exactly one of "won by" and "ended";
    the number of rounds logged as won is the number of points gained by
    the squads together; at most seven rounds are played. *)
Theorem console_tallies_with_scores (w : World) :
  let played := snd (gameLoop wait (console_log GameStartedLine (onGame startGame w), 0)) in
  let final := OnGameModeStarted wait w in
  0 <= played <= 7 /\
  roundsStarted final = roundsStarted w + played /\
  roundsEnded final = roundsEnded w + played /\
  roundsWon final - roundsWon w = pointsHeld final - pointsHeld w.
Proof.
  cbv zeta.
  destruct (OnGameModeStarted_shape w) as (line & H1 & H2 & H3 & ->).
  destruct (script_ends_tally line w
              (fst (gameLoop wait (console_log GameStartedLine (onGame startGame w), 0)))
              H1 H2 H3)
    as ((S1 & S2 & S3 & S4) & (F1 & F2 & F3 & F4 & _)).
  destruct (gameLoop_tally (console_log GameStartedLine (onGame startGame w), 0))
    as (Ha & Hb & Hc & _).
  cbn [fst snd] in Ha, Hb, Hc.
  pose proof (played_bounds (console_log GameStartedLine (onGame startGame w))) as Hp.
  unfold MAX_NUMBER_OF_ROUNDS in Hp.
  repeat split; lia.
Qed.

(** X20: why seven rounds.  If every squad starts at 0, the host does not
    change scores and the game is lost (no squad has two wins at the end),
    then all seven rounds were played, at most as many of them were won as
    there are squads, and the others ended without a winner: with six squads
    at least one round did. *)
Theorem lost_game_pigeonhole (w : World) :
  Forall (fun x => x = 0) (scores (game w)) ->
  winners (game (OnGameModeStarted wait w)) = [] ->
  let played := snd (gameLoop wait (console_log GameStartedLine (onGame startGame w), 0)) in
  let final := OnGameModeStarted wait w in
  let squads := Z.of_nat (List.length (teams (game w))) in
  played = 7 /\
  roundsWon final - roundsWon w <= squads /\
  7 - squads
  <= countLines isRoundEndedAlive (console final) - countLines isRoundEndedAlive (console w).
Proof.
  intros Hzero Hlost. cbv zeta.
  destruct (OnGameModeStarted_shape w) as (line & H1 & H2 & H3 & Hshape).
  rewrite Hshape in *.
  set (started := console_log GameStartedLine (onGame startGame w)) in *.
  destruct (script_ends_tally line w (fst (gameLoop wait (started, 0))) H1 H2 H3)
    as ((S1 & S2 & S3 & S4) & (F1 & F2 & F3 & F4 & F5)).
  fold started in S1, S2, S3, S4.
  destruct (gameLoop_tally (started, 0)) as (_ & Hb & Hc & Hlen).
  cbn [fst snd] in Hb, Hc, Hlen.
  pose proof (played_bounds started) as Hbounds.
  pose proof (gameLoop_exit wait (started, 0)) as Hexit.
  assert (Hlost' : winners (game (fst (gameLoop wait (started, 0)))) = []) by exact Hlost.
  assert (Hplayed : snd (gameLoop wait (started, 0)) = 7).
  { unfold gameStep, gameGuard in Hexit.
    apply winners_nil_iff in Hlost'. rewrite Hlost' in Hexit. cbn [andb] in Hexit.
    destruct (Z.ltb_spec (snd (gameLoop wait (started, 0))) MAX_NUMBER_OF_ROUNDS);
      [discriminate |]. unfold MAX_NUMBER_OF_ROUNDS in *. lia. }
  assert (Hsum : pointsHeld (fst (gameLoop wait (started, 0)))
                 <= Z.of_nat (List.length (teams (game w)))).
  { unfold pointsHeld. apply winners_nil_scores in Hlost'.
    pose proof (sumZ_bound _ Hlost') as Hs. rewrite Hlen in Hs.
    change (scores (game started)) with (scores (game w)) in Hs.
    unfold scores at 2, Map_values in Hs. rewrite !length_map in Hs. exact Hs. }
  assert (H0 : pointsHeld w = 0) by (apply sumZ_zero; exact Hzero).
  assert (Hw : roundsEnded w
               = roundsWon w + countLines isRoundEndedAlive (console w)) by reflexivity.
  assert (Hl : roundsEnded (fst (gameLoop wait (started, 0)))
               = roundsWon (fst (gameLoop wait (started, 0)))
                 + countLines isRoundEndedAlive
                     (console (fst (gameLoop wait (started, 0))))) by reflexivity.
  repeat split; lia.
Qed.

End Tally.

Lemma console_tallies_with_scores_witness :
  let w := {| game := fullLobby; console := [] |} in
  let played :=
    snd (gameLoop noEvents (console_log GameStartedLine (onGame startGame w), 0)) in
  let final := OnGameModeStarted noEvents w in
  0 <= played <= 7 /\
  roundsStarted final = roundsStarted w + played /\
  roundsEnded final = roundsEnded w + played /\
  roundsWon final - roundsWon w = pointsHeld final - pointsHeld w.
Proof.
  apply (console_tallies_with_scores noEvents (fun _ _ _ => eq_refl)
           {| game := fullLobby; console := [] |}).
Defined.

Lemma scores_never_exceed_two_witness :
  let final := OnGameModeStarted noEvents {| game := fullLobby; console := [] |} in
  Forall (fun x => x <= 2) (scores (game final)) /\
  (forall s, In s (winners (game final)) -> teamScore s = 2) /\
  List.length (teams (game final)) = List.length (teams fullLobby).
Proof.
  apply (scores_never_exceed_two noEvents (fun _ _ _ => eq_refl)
           {| game := fullLobby; console := [] |}).
  reflexivity.
Defined.

Lemma lost_game_pigeonhole_witness :
  let w := {| game := fullLobby; console := [] |} in
  let played :=
    snd (gameLoop noEvents (console_log GameStartedLine (onGame startGame w), 0)) in
  let final := OnGameModeStarted noEvents w in
  let squads := Z.of_nat (List.length (teams (game w))) in
  played = 7 /\
  roundsWon final - roundsWon w <= squads /\
  7 - squads
  <= countLines isRoundEndedAlive (console final) - countLines isRoundEndedAlive (console w).
Proof.
  apply (lost_game_pigeonhole noEvents (fun _ _ _ => eq_refl)
           {| game := fullLobby; console := [] |}).
  - repeat constructor.
  - vm_compute. reflexivity.
Defined.

(** Squads 0 to 5 each win one of the first six rounds and nobody survives
    the seventh: six rounds won, one without a winner, the game lost. *)
Example run_six_winners_lose :
  let final := OnGameModeStarted (lastStanding (fun n => n))
                 {| game := fullLobby; console := [] |} in
  scores (game final) = [1; 1; 1; 1; 1; 1] /\
  roundsWon final = 6 /\
  countLines isRoundEndedAlive (console final) = 1 /\
  last (console final) GameStartedLine = GameLost 7.
Proof. vm_compute. repeat split. Qed.

(** ** The round object of [part_000] *)

(** X21: what a [RoundState] can hold.  After any sequence of
    [startNewRound] (accepted or thrown) and [endRound] on a constructed
    object, [roundNumber] is between -1 and 7 (7 included), [roundStarted]
    and [roundEnded] are not both true, and the timer, the sudden death flag
    and the two maps are as constructed: no method of the class ever changes
    them. *)
Theorem RoundState_reachable (ops : list RoundOp) :
  let r := runRoundOps Part000.newRoundState ops in
  -1 <= Part000.roundNumber r <= 7 /\
  Part000.roundStarted r && Part000.roundEnded r = false /\
  Part000.roundTimerSecs r = 0 /\
  Part000.isSuddenDeath r = false /\
  Part000.roundTeams r = [] /\
  Part000.roundPlayers r = [].
Proof.
  cbv zeta.
  assert (H : forall r,
    (-1 <= Part000.roundNumber r <= 7 /\
     Part000.roundStarted r && Part000.roundEnded r = false /\
     Part000.roundTimerSecs r = 0 /\
     Part000.isSuddenDeath r = false /\
     Part000.roundTeams r = [] /\
     Part000.roundPlayers r = []) ->
    let r' := runRoundOps r ops in
    -1 <= Part000.roundNumber r' <= 7 /\
    Part000.roundStarted r' && Part000.roundEnded r' = false /\
    Part000.roundTimerSecs r' = 0 /\
    Part000.isSuddenDeath r' = false /\
    Part000.roundTeams r' = [] /\
    Part000.roundPlayers r' = []).
  { induction ops as [| op ops IH]; intros r Hr; cbn; [exact Hr |].
    apply IH. destruct Hr as (Hn & Hf & Ht & Hs & Hm & Hp).
    destruct op as [n |]; cbn.
    - unfold Part000.startNewRound, Part000.MAX_ROUNDS.
      destruct (Z.ltb_spec n 0), (Z.ltb_spec 7 n); cbn; repeat split; auto; lia.
    - repeat split; auto; lia. }
  apply H. cbn. repeat split; lia.
Qed.

(** ** Who cannot be revived *)

(** X22: [canBeRevived] answers false for every player who is alive
    (a constructed player and a player just revived among them) and for
    every player whose squad id is not a key of the map, dead or not; the
    ping flag plays no part; and for a dead player whose squad is found the
    answer is the squad's: a revive left and a player alive. *)
Theorem canBeRevived_rejects (p : Player) (id : Z) (b : bool) (ts : JsMap Team) :
  canBeRevived (handlePlayerRevive p) ts = false /\
  canBeRevived (newPlayer id) ts = false /\
  (playerAlive p = true -> canBeRevived p ts = false) /\
  (Map_get (playerTeam p) ts = None ->
   canBeRevived p ts = false /\ canBeRevived (handlePlayerDeath p) ts = false) /\
  canBeRevived (setPlayerPinged b p) ts = canBeRevived p ts /\
  (forall s, Map_get (playerTeam p) ts = Some s ->
             canBeRevived (handlePlayerDeath p) ts = squadCanRevive s).
Proof.
  unfold canBeRevived, squadCanRevive. cbn.
  repeat split.
  - intros ->. reflexivity.
  - destruct (playerAlive p); [reflexivity | rewrite H; reflexivity].
  - rewrite H. reflexivity.
  - intros s ->. reflexivity.
Qed.

(** ** The script with its own handlers *)








(** ** Bookkeeping of a squad over a round *)

Lemma applyTeamOp_counters t op :
  withinRound op = true ->
  teamPlayersAlive (applyTeamOp t op)
  = teamPlayersAlive t - (if isDeath op then 1 else 0) + (if isRevive op then 1 else 0) /\
  teamRevivesLeft (applyTeamOp t op)
  = teamRevivesLeft t - (if isRevive op then 1 else 0).
Proof.
  destruct op; cbn; intros Hop; try discriminate; try (split; lia).
  rewrite handleTeamDeath_playersAlive. unfold handleTeamDeath. cbn.
  destruct (teamPlayersAlive t - 1 =? 0); cbn; split; lia.
Qed.

(** X24: the counters of a squad add up.  Through one round (no reset),
    checked or not, [teamPlayersAlive] is four minus the deaths plus the
    revives and [teamRevivesLeft] is four minus the revives: the two
    counters together are eight minus the deaths, and [teamPlayersAlive]
    exceeds four as soon as revives outnumber deaths. *)
Theorem squad_counters_add_up (t : Team) (ops : list TeamOp) :
  forallb withinRound ops = true ->
  let t' := runTeamOps (roundReset t) ops in
  teamPlayersAlive t' = 4 - countDeaths ops + countRevives ops /\
  teamRevivesLeft t' = 4 - countRevives ops /\
  teamPlayersAlive t' + teamRevivesLeft t' = 8 - countDeaths ops.
Proof.
  intros Hops. cbv zeta.
  assert (H : forall u,
    teamPlayersAlive (runTeamOps u ops)
    = teamPlayersAlive u - countDeaths ops + countRevives ops /\
    teamRevivesLeft (runTeamOps u ops) = teamRevivesLeft u - countRevives ops).
  { unfold countDeaths, countRevives.
    induction ops as [| op ops IH]; intros u; cbn [runTeamOps fold_left filter].
    - cbn. split; lia.
    - cbn [forallb] in Hops. apply andb_true_iff in Hops as [Hop Hops].
      destruct (IH Hops (applyTeamOp u op)) as [Ha Hr].
      destruct (applyTeamOp_counters u op Hop) as [Ha1 Hr1].
      unfold runTeamOps in Ha, Hr. rewrite Ha, Hr, Ha1, Hr1.
      destruct (isDeath op), (isRevive op); cbn [List.length]; split; lia. }
  destruct (H (roundReset t)) as [Ha Hr].
  cbn [teamPlayersAlive teamRevivesLeft roundReset] in Ha, Hr.
  unfold INITIAL_TEAM_REVIVES in Hr. repeat split; lia.
Qed.

Lemma squad_counters_add_up_witness :
  let t' := runTeamOps (roundReset (newTeam 0)) [OpRevive; OpDeath; OpRevive; OpRoundWin] in
  teamPlayersAlive t'
  = 4 - countDeaths [OpRevive; OpDeath; OpRevive; OpRoundWin]
    + countRevives [OpRevive; OpDeath; OpRevive; OpRoundWin] /\
  teamRevivesLeft t' = 4 - countRevives [OpRevive; OpDeath; OpRevive; OpRoundWin] /\
  teamPlayersAlive t' + teamRevivesLeft t'
  = 8 - countDeaths [OpRevive; OpDeath; OpRevive; OpRoundWin].
Proof.
  apply (squad_counters_add_up (newTeam 0) [OpRevive; OpDeath; OpRevive; OpRoundWin]).
  reflexivity.
Defined.
